(** * VideoFrameWriter (Malmo/src/VideoFrameWriter.cpp)

    A shallow embedding of the frame writer: the throttle in [write], the
    hand-off queue, the background loop [writeFrames] with its pixel
    conversion, and the [open] / [close] life cycle.

    The object is shared by two threads: the controlling thread, which calls
    [open], [write] and [close], and the thread started by [open], which runs
    [writeFrames].  The embedding is a small-step interleaving semantics: each
    step is one critical section of the source (one region under a mutex, or
    one access to the unguarded flag [is_open]) together with the
    thread-private code that follows it. *)

From Stdlib Require Import ZArith Lia List String Ascii Bool.
From Stdlib.Strings Require Import Byte.
From stdpp Require Import list strings pretty.

Local Open Scope Z_scope.

(** ** C++ [int] *)

(** [count], [frame_index] and the index arithmetic of the conversion loop
    are C++ [int]s.  Overflow is written out as 32-bit two's complement
    wrap-around. *)
Module CInt.
Definition max : Z := 2 ^ 31 - 1.
Definition wrap (z : Z) : Z := (z + 2 ^ 31) mod 2 ^ 32 - 2 ^ 31.
Definition add (a b : Z) : Z := wrap (a + b).
Definition mul (a b : Z) : Z := wrap (a * b).
Definition incr (a : Z) : Z := add a 1.

End CInt.

(** ** boost::posix_time *)

(** A [ptime] and a [time_duration] are counts of ticks; with the default
    configuration of Boost.Date_Time a tick is one microsecond.
    [time_duration::operator/(int)] divides the tick count with C++ integer
    division (truncation towards zero); a zero divisor has no defined
    result. *)
Module posix_time.
Definition ptime := Z.
Definition time_duration := Z.
Definition ticks_per_second : Z := 1000000.
Definition milliseconds (n : Z) : time_duration := n * (ticks_per_second / 1000).
Definition div (d : time_duration) (n : Z) : option time_duration :=
  if n =? 0 then None else Some (Z.quot d n).
End posix_time.

(** ** std::ofstream *)

(** The state of [frame_info_stream] that the code can observe: whether a
    file is attached and whether an error flag is set.  The bytes of the file
    itself are kept next to it.  Whether the file at [frame_info_path] can
    be created is up to the file system: [ok] is its answer.  Opening a
    stream that has no file attached succeeds when [ok] holds (and then
    clears the error flags and truncates the file) and otherwise fails,
    leaving the stream closed and the file as it was; opening a stream that
    is already open, closing one that is not, and writing to one that is not
    all fail.  A failure sets an error flag, after which output is
    discarded. *)
Record ofstream := { os_open : bool; os_fail : bool }.

Definition ofstream_open (ok : bool) (st : ofstream) (content : string)
  : ofstream * string :=
  if os_open st then ({| os_open := true; os_fail := true |}, content)
  else if ok then ({| os_open := true; os_fail := false |}, ""%string)
  else ({| os_open := false; os_fail := true |}, content).

Definition ofstream_close (st : ofstream) : ofstream :=
  if os_open st then {| os_open := false; os_fail := os_fail st |}
  else {| os_open := false; os_fail := true |}.

Definition ofstream_put (text : string) (st : ofstream) (content : string)
  : ofstream * string :=
  if os_fail st then (st, content)
  else if os_open st then (st, content +:+ text)
  else ({| os_open := false; os_fail := true |}, content).

Definition endl : string := String (ascii_of_nat 10) EmptyString.

(** [os << std::setfill(c) << std::setw(n) << x]: pad on the left up to [n]. *)
Definition setfill_setw (c : ascii) (n : nat) (s : string) : string :=
  string_of_list_ascii (repeat c (n - String.length s)%nat) +:+ s.

(** The number that a string of decimal digits spells, read from the left
    after the digits already gathered in [acc]. *)
Definition digit_value (c : ascii) : N := (N_of_ascii c - 48)%N.

Fixpoint read_digits (s : string) (acc : N) : N :=
  match s with
  | EmptyString => acc
  | String c rest => read_digits rest (acc * 10 + digit_value c)
  end.

(** ** TimestampedVideoFrame *)

Module Frame.
(** Modelled from the spec: the struct is declared in a header outside this
    file.  These are the fields the writer reads; [width] and [height] are
    16-bit, [pixels] is the byte buffer, and [float] stands for the type of
    the coordinates, which the writer only prints. *)
Record t (float : Type) := mk {
  width : Z;
  height : Z;
  channels : Z;
  pixels : list byte;
  timestamp : posix_time.ptime;
  xPos : float;
  yPos : float;
  zPos : float;
  yaw : float;
  pitch : float
}.
Arguments mk {float}.
Arguments width {float}.
Arguments height {float}.
Arguments channels {float}.
Arguments pixels {float}.
Arguments timestamp {float}.
Arguments xPos {float}.
Arguments yPos {float}.
Arguments zPos {float}.
Arguments yaw {float}.
Arguments pitch {float}.
End Frame.

(** ** Pixel conversion (writeFrames, lines 131-149) *)

Inductive exn :=
| runtime_error (what : string)
| bad_array_new_length.

(** The buffer handed to [doWrite] is a list of cells; a cell of a freshly
    allocated [new char[n]] holds no determinate value until it is written. *)
Abbreviation cell := (option byte).

Inductive conv_result :=
| ConvOk (out : list cell)
| ConvThrow (e : exn)
| ConvUndefined.

(** [out_pixels[idx] = v]; outside the allocation the store is undefined. *)
Definition store (out : list cell) (idx : Z) (v : byte) : option (list cell) :=
  if (0 <=? idx) && (idx <? Z.of_nat (length out))
  then Some (<[Z.to_nat idx := Some v]> out)
  else None.

(** [frame.pixels[idx]]; outside the vector the load is undefined. *)
Definition load (pixels : list byte) (idx : Z) : option byte :=
  if 0 <=? idx then pixels !! Z.to_nat idx else None.

(** Line 138: the chained assignment stores right to left. *)
Definition ddd_body (pixels : list byte) (out : list cell) (i : Z)
  : option (list cell) :=
  match load pixels (CInt.add (CInt.mul i 4) 3) with
  | None => None
  | Some v =>
      match store out (CInt.add (CInt.mul i 3) 2) v with
      | None => None
      | Some out2 =>
          match store out2 (CInt.add (CInt.mul i 3) 1) v with
          | None => None
          | Some out1 => store out1 (CInt.mul i 3) v
          end
      end
  end.

(** Lines 136-139: [todo] is the number of iterations still to run. *)
Fixpoint ddd_loop (pixels : list byte) (todo : nat) (i : Z) (out : list cell)
  : option (list cell) :=
  match todo with
  | O => Some out
  | S k =>
      match ddd_body pixels out i with
      | None => None
      | Some out' => ddd_loop pixels k (CInt.incr i) out'
      end
  end.

(** Lines 135-139: allocation and the loop [for (i = 0; i < w*h; i++)]. *)
Definition extract_DDD {float} (f : Frame.t float) : conv_result :=
  let n := CInt.mul (Frame.width f) (Frame.height f) in
  let size := CInt.mul n 3 in
  if size <? 0 then ConvThrow bad_array_new_length
  else match ddd_loop (Frame.pixels f) (Z.to_nat n) 0
               (replicate (Z.to_nat size) None) with
       | Some out => ConvOk out
       | None => ConvUndefined
       end.

(** Lines 131-149: what [doWrite] receives for a frame. *)
Definition sink_buffer {float} (f : Frame.t float) : conv_result :=
  if Frame.channels f =? 4 then extract_DDD f
  else if Frame.channels f =? 3 then ConvOk (Some <$> Frame.pixels f)
  else ConvThrow (runtime_error "Unsupported number of channels").

(** The invariant of a frame: [pixels] holds width x height x channels
    bytes. *)
Definition well_formed {float} (f : Frame.t float) : Prop :=
  Z.of_nat (length (Frame.pixels f))
  = Frame.width f * Frame.height f * Frame.channels f.

(** The index of every byte of the frame fits an [int]. *)
Definition int_indexed {float} (f : Frame.t float) : Prop :=
  Z.of_nat (length (Frame.pixels f)) <= CInt.max + 1.

(** One call of the sink [doWrite(pixels, width, height, frame_index)]. *)
Record sink_call := {
  sc_pixels : list cell;
  sc_width : Z;
  sc_height : Z;
  sc_index : Z
}.

(** ** The writer object *)

(** [operator<<] on a coordinate and [boost::posix_time::to_iso_string]
    belong to the libraries; the writer only concatenates their results. *)
Class FrameText (float : Type) := {
  show_float : float -> string;
  to_iso_string : posix_time.ptime -> string
}.

Section Writer.

Context `{FrameText float}.

Local Abbreviation TimestampedVideoFrame := (Frame.t float).

(** The members of [VideoFrameWriter] that only the controlling thread
    writes, with the side file behind [frame_info_stream].  [is_open] is also
    read by the background thread.  The class is declared in a header
    outside this file: the members are those the code reads and writes, time
    stamps and durations are Boost's, and [frame_index] is an [int]. *)
Record control := {
  width : Z;
  height : Z;
  frames_per_second : Z;
  is_open : bool;
  frame_duration : posix_time.time_duration;
  start_time : posix_time.ptime;
  last_timestamp : posix_time.ptime;
  frame_index : Z;
  frame_info_stream : ofstream;
  frame_info_file : string
}.

(** Lines 35-42.  The members the constructor leaves uninitialised take the
    values [t0] and [i0]; [file0] is whatever the side file holds.  Dividing
    by [frames_per_second = 0] has no result. *)
Definition VideoFrameWriter_new (w h fps : Z)
    (t0 : posix_time.ptime) (i0 : Z) (file0 : string) : option control :=
  match posix_time.div (posix_time.milliseconds 1000) fps with
  | None => None
  | Some d =>
      Some {| width := w; height := h; frames_per_second := fps;
              is_open := false;
              frame_duration := d;
              start_time := t0; last_timestamp := t0; frame_index := i0;
              frame_info_stream := {| os_open := false; os_fail := false |};
              frame_info_file := file0 |}
  end.

(** Line 160: the throttle test of [write]. *)
Definition write_accepts (c : control) (f : TimestampedVideoFrame) : bool :=
  frame_duration c <=? Frame.timestamp f - last_timestamp c.

(** Lines 163-167: the text of one line of the side file. *)
Definition frame_name (idx : Z) : string :=
  "frame_" +:+ setfill_setw "0"%char 6 (pretty idx).

Definition posdata (f : TimestampedVideoFrame) : string :=
  "xyzyp: " +:+ show_float (Frame.xPos f) +:+ " " +:+ show_float (Frame.yPos f)
  +:+ " " +:+ show_float (Frame.zPos f) +:+ " " +:+ show_float (Frame.yaw f)
  +:+ " " +:+ show_float (Frame.pitch f).

Definition info_line (f : TimestampedVideoFrame) (idx : Z) : string :=
  to_iso_string (Frame.timestamp f) +:+ " " +:+ frame_name idx
  +:+ " " +:+ posdata f +:+ endl.

(** Lines 161-169: the part of an accepted [write] that touches only the
    controlling thread's members. *)
Definition write_accept (f : TimestampedVideoFrame) (c : control) : control :=
  let out := ofstream_put (info_line f (frame_index c))
                          (frame_info_stream c) (frame_info_file c) in
  {| width := width c; height := height c;
     frames_per_second := frames_per_second c;
     is_open := is_open c;
     frame_duration := frame_duration c;
     start_time := start_time c;
     last_timestamp := Frame.timestamp f;
     frame_index := CInt.incr (frame_index c);
     frame_info_stream := fst out;
     frame_info_file := snd out |}.

(** Lines 85-87 of [close]. *)
Definition close_control (c : control) : control :=
  {| width := width c; height := height c;
     frames_per_second := frames_per_second c;
     is_open := false;
     frame_duration := frame_duration c;
     start_time := start_time c;
     last_timestamp := last_timestamp c;
     frame_index := frame_index c;
     frame_info_stream := ofstream_close (frame_info_stream c);
     frame_info_file := frame_info_file c |}.

(** Lines 61-71 of [open]; [now] is the reading of the clock at line 68 and
    [ok] tells whether the side file can be created at line 61.  The code
    does not look at the state of the stream after line 61. *)
Definition open_control (now : posix_time.ptime) (ok : bool) (c : control)
  : control :=
  let o := ofstream_open ok (frame_info_stream c) (frame_info_file c) in
  let w := ofstream_put ("width=" +:+ pretty (width c) +:+ endl) (fst o) (snd o) in
  let h := ofstream_put ("height=" +:+ pretty (height c) +:+ endl) (fst w) (snd w) in
  {| width := width c; height := height c;
     frames_per_second := frames_per_second c;
     is_open := true;
     frame_duration := frame_duration c;
     start_time := now;
     last_timestamp := now - frame_duration c;
     frame_index := 0;
     frame_info_stream := fst h;
     frame_info_file := snd h |}.

(** ** The two threads *)

(** Where the thread running [writeFrames] stands, with its local [count]
    and, after the pop, its local [frame] ([None] is the default-constructed
    frame left untouched by an empty queue). *)
Inductive thread :=
| NotAThread
| AtLoopTest (count : Z)
| AtWait (count : Z)
| AtPop (count : Z)
| AtDispatch (count : Z) (frame : option TimestampedVideoFrame)
| Returned
| Threw (e : exn)
| Undefined.

(** The steps the controlling thread still has to take. *)
Inductive pinstr :=
| PWriteGate (f : TimestampedVideoFrame)
| PPush (f : TimestampedVideoFrame)
| PSignal
| PCloseTest
| PJoin
| POpenInit (now : posix_time.ptime) (ok : bool)
| PSpawn.

Record world := {
  ctl : control;
  frame_buffer : list TimestampedVideoFrame;
  frames_available : bool;
  frame_writer_thread : thread;
  sink_calls : list sink_call;
  detached : nat;
  prod : list pinstr
}.

Definition set_ctl (c : control) (s : world) : world :=
  {| ctl := c; frame_buffer := frame_buffer s;
     frames_available := frames_available s;
     frame_writer_thread := frame_writer_thread s;
     sink_calls := sink_calls s; detached := detached s; prod := prod s |}.

Definition set_frame_buffer (q : list TimestampedVideoFrame) (s : world) : world :=
  {| ctl := ctl s; frame_buffer := q;
     frames_available := frames_available s;
     frame_writer_thread := frame_writer_thread s;
     sink_calls := sink_calls s; detached := detached s; prod := prod s |}.

Definition set_frames_available (b : bool) (s : world) : world :=
  {| ctl := ctl s; frame_buffer := frame_buffer s;
     frames_available := b;
     frame_writer_thread := frame_writer_thread s;
     sink_calls := sink_calls s; detached := detached s; prod := prod s |}.

Definition set_thread (t : thread) (s : world) : world :=
  {| ctl := ctl s; frame_buffer := frame_buffer s;
     frames_available := frames_available s;
     frame_writer_thread := t;
     sink_calls := sink_calls s; detached := detached s; prod := prod s |}.

Definition set_sink_calls (l : list sink_call) (s : world) : world :=
  {| ctl := ctl s; frame_buffer := frame_buffer s;
     frames_available := frames_available s;
     frame_writer_thread := frame_writer_thread s;
     sink_calls := l; detached := detached s; prod := prod s |}.

Definition set_detached (n : nat) (s : world) : world :=
  {| ctl := ctl s; frame_buffer := frame_buffer s;
     frames_available := frames_available s;
     frame_writer_thread := frame_writer_thread s;
     sink_calls := sink_calls s; detached := n; prod := prod s |}.

Definition set_prod (p : list pinstr) (s : world) : world :=
  {| ctl := ctl s; frame_buffer := frame_buffer s;
     frames_available := frames_available s;
     frame_writer_thread := frame_writer_thread s;
     sink_calls := sink_calls s; detached := detached s; prod := p |}.

(** Lines 156-185, 82-99, 57-75 and 52-55 as sequences of steps.  The
    steps of an accepted [write] and of a [close] that finds the writer open
    are added when the test is taken. *)
Definition write (f : TimestampedVideoFrame) : list pinstr := [PWriteGate f].
Definition close : list pinstr := [PCloseTest].
Definition open (now : posix_time.ptime) (ok : bool) : list pinstr :=
  close ++ [POpenInit now ok; PSpawn].
Definition destroy : list pinstr := close.

(** A call of a member function.  [Open now ok] is a call of [open] during
    which the clock reads [now] at line 68 and the file system tells at
    line 61 whether the side file can be created. *)
Inductive call :=
| Open (now : posix_time.ptime) (ok : bool)
| Write (f : TimestampedVideoFrame)
| Close
| Destroy.

Definition call_steps (c : call) : list pinstr :=
  match c with
  | Open now ok => open now ok
  | Write f => write f
  | Close => close
  | Destroy => destroy
  end.

Definition program (cs : list call) : list pinstr := concat (map call_steps cs).

(** An exception that leaves [writeFrames], or undefined behaviour in it,
    ends the whole process. *)
Definition crashed (s : world) : bool :=
  match frame_writer_thread s with
  | Threw _ | Undefined => true
  | _ => false
  end.

Definition joinable (t : thread) : bool :=
  match t with NotAThread => false | _ => true end.

Definition run_pinstr (i : pinstr) (s : world) : option world :=
  match i with
  | PWriteGate f =>                                         (* lines 160-169 *)
      if write_accepts (ctl s) f
      then Some (set_prod (PPush f :: PSignal :: prod s)
                   (set_ctl (write_accept f (ctl s)) s))
      else Some s
  | PPush f =>                                              (* lines 171-175 *)
      Some (set_frame_buffer (frame_buffer s ++ [f]) s)
  | PSignal =>                               (* lines 177-183 and 89-95 *)
      Some (set_frames_available true s)
  | PCloseTest =>                                           (* lines 84-87 *)
      if is_open (ctl s)
      then Some (set_prod (PSignal :: PJoin :: prod s)
                   (set_ctl (close_control (ctl s)) s))
      else Some s
  | PJoin =>                                                (* line 97 *)
      match frame_writer_thread s with
      | Returned => Some (set_thread NotAThread s)
      | NotAThread => Some s
      | _ => None
      end
  | POpenInit now ok =>                                     (* lines 61-71 *)
      Some (set_ctl (open_control now ok (ctl s)) s)
  | PSpawn =>                                               (* lines 73-74 *)
      let s1 := set_frames_available false s in
      let s2 := if joinable (frame_writer_thread s)
                then set_detached (S (detached s)) s1 else s1 in
      Some (set_thread (AtLoopTest 0) s2)
  end.

Definition producer_step (s : world) : option world :=
  if crashed s then None
  else match prod s with
       | [] => None
       | i :: rest => run_pinstr i (set_prod rest s)
       end.

(** Modelled from the spec: the default constructor of
    [TimestampedVideoFrame] is outside this file; the frame it builds is the
    no-frame value, whose width is 0. *)
Definition popped_width (fo : option TimestampedVideoFrame) : Z :=
  match fo with
  | Some f => Frame.width f
  | None => 0
  end.

(** Lines 124-151. *)
Definition dispatch (count : Z) (fo : option TimestampedVideoFrame) (s : world)
  : world :=
  if popped_width fo =? 0
  then set_thread (AtLoopTest count) (set_frames_available false s)
  else match fo with
       | Some f =>
           match sink_buffer f with
           | ConvOk out =>
               set_thread (AtPop (CInt.incr count))
                 (set_sink_calls
                    (sink_calls s ++
                       [{| sc_pixels := out; sc_width := Frame.width f;
                           sc_height := Frame.height f; sc_index := count |}])
                    s)
           | ConvThrow e => set_thread (Threw e) s
           | ConvUndefined => set_thread Undefined s
           end
       | None => s
       end.

Definition consumer_step (s : world) : option world :=
  match frame_writer_thread s with
  | AtLoopTest c =>                                         (* line 104 *)
      Some (set_thread (if is_open (ctl s) then AtWait c else Returned) s)
  | AtWait c =>                                             (* lines 106-111 *)
      if frames_available s then Some (set_thread (AtPop c) s) else None
  | AtPop c =>                                              (* lines 114-122 *)
      match frame_buffer s with
      | [] => Some (set_thread (AtDispatch c None) s)
      | f :: q => Some (set_thread (AtDispatch c (Some f)) (set_frame_buffer q s))
      end
  | AtDispatch c fo => Some (dispatch c fo s)
  | NotAThread | Returned | Threw _ | Undefined => None
  end.

Inductive tid := Producer | Consumer.

Definition step (t : tid) (s : world) : option world :=
  match t with
  | Producer => producer_step s
  | Consumer => consumer_step s
  end.

(** A schedule names the thread that takes each step; a schedule that names
    a thread which cannot move has no run. *)
Fixpoint exec (sched : list tid) (s : world) : option world :=
  match sched with
  | [] => Some s
  | t :: rest =>
      match step t s with
      | Some s' => exec rest s'
      | None => None
      end
  end.

(** A writer with the members [c], an empty queue and no thread, about to
    run the calls [cs]. *)
Definition start (c : control) (cs : list call) : world :=
  {| ctl := c; frame_buffer := []; frames_available := false;
     frame_writer_thread := NotAThread; sink_calls := []; detached := 0%nat;
     prod := program cs |}.

(** ** The controlling thread on its own *)

(** What a step of the controlling thread does to the members only it
    writes: the [ctl] part of [run_pinstr]. *)
Definition control_effect (i : pinstr) (c : control) : control :=
  match i with
  | PWriteGate f => if write_accepts c f then write_accept f c else c
  | PCloseTest => if is_open c then close_control c else c
  | POpenInit now ok => open_control now ok c
  | PPush _ | PSignal | PJoin | PSpawn => c
  end.

(** The members of the controlling thread once it has taken all the steps
    of [todo]. *)
Definition finish (todo : list pinstr) (c : control) : control :=
  fold_left (fun c i => control_effect i c) todo c.

(** Steps that start no thread and open no session. *)
Definition no_reopen (i : pinstr) : bool :=
  match i with
  | POpenInit _ _ | PSpawn => false
  | _ => true
  end.


(** ** The throttle on a sequence of submissions *)

(** The frames of [fs] that successive calls of [write] accept, each with
    the value of [frame_index] it is given. *)
Fixpoint accepted (dur : posix_time.time_duration) (last : posix_time.ptime)
    (idx : Z) (fs : list TimestampedVideoFrame)
  : list (TimestampedVideoFrame * Z) :=
  match fs with
  | [] => []
  | f :: rest =>
      if dur <=? Frame.timestamp f - last
      then (f, idx) :: accepted dur (Frame.timestamp f) (CInt.incr idx) rest
      else accepted dur last idx rest
  end.

(** ** What the sink is due *)

(** Line 77: [isOpen]. *)
Definition isOpen (s : world) : bool := is_open (ctl s).

(** A frame the loop hands to the sink: it is not taken for the no-frame
    value at line 124 and lines 131-149 produce a buffer for it. *)
Definition deliverable (f : TimestampedVideoFrame) : bool :=
  negb (Frame.width f =? 0)
  && match sink_buffer f with ConvOk _ => true | _ => false end.

(** The calls of [doWrite] that lines 131-151 make for the frames [fs], in
    order, when [count] has the value [count] before the first. *)
Fixpoint deliver (count : Z) (fs : list TimestampedVideoFrame)
  : list sink_call :=
  match fs with
  | [] => []
  | f :: rest =>
      match sink_buffer f with
      | ConvOk out =>
          {| sc_pixels := out; sc_width := Frame.width f;
             sc_height := Frame.height f; sc_index := count |}
          :: deliver (CInt.incr count) rest
      | _ => []
      end
  end.

(** The frame the loop has popped and not yet dispatched, and its [count]. *)
Definition in_flight (t : thread) : list TimestampedVideoFrame :=
  match t with
  | AtDispatch _ (Some f) => [f]
  | _ => []
  end.

Definition thread_count (t : thread) : option Z :=
  match t with
  | AtLoopTest c | AtWait c | AtPop c | AtDispatch c _ => Some c
  | _ => None
  end.

(** The frames the steps [todo] of the controlling thread will append to the
    queue, starting from the members [c]. *)
Fixpoint will_push (todo : list pinstr) (c : control)
  : list TimestampedVideoFrame :=
  match todo with
  | [] => []
  | PPush f :: rest => f :: will_push rest c
  | PWriteGate f :: rest =>
      if write_accepts c f then f :: will_push rest (write_accept f c)
      else will_push rest c
  | i :: rest => will_push rest (control_effect i c)
  end.

(** Every frame that is on its way to the sink: popped, queued, or still to
    be pushed. *)
Definition pending (s : world) : list TimestampedVideoFrame :=
  in_flight (frame_writer_thread s) ++ frame_buffer s
    ++ will_push (prod s) (ctl s).

(** [count] is the count of the thread, if the thread has one. *)
Definition counts (t : thread) (count : Z) : Prop :=
  forall c, thread_count t = Some c -> c = count.

(** The steps left of a call of [open] on a closed writer. *)
Definition opening (todo : list pinstr) (c : control) : Prop :=
  exists now ok rest,
    forallb no_reopen rest = true
    /\ ((todo = open now ok ++ rest /\ is_open c = false)
        \/ todo = POpenInit now ok :: PSpawn :: rest
        \/ todo = PSpawn :: rest).

(** The sink is on course to receive [expected]: what it has received,
    followed by the calls for the frames on their way. *)
Definition on_course (expected : list sink_call) (s : world) : Prop :=
  crashed s = false
  /\ forallb deliverable (pending s) = true
  /\ exists count,
      sink_calls s ++ deliver count (pending s) = expected
      /\ ((forallb no_reopen (prod s) = true
           /\ counts (frame_writer_thread s) count)
          \/ (opening (prod s) (ctl s)
              /\ frame_writer_thread s = NotAThread /\ count = 0)).

(** ** The thread and the flag [is_open] *)

(** Between calls an open writer has a thread and a closed one has none. *)
Definition linked (o : bool) (t : thread) : Prop :=
  if o then joinable t = true else t = NotAThread.

(** Where the controlling thread stands in the calls it was given, with the
    value of [is_open] and the state of the thread that go with it: between
    two calls or inside [write]; inside [close], alone or at the start of
    [open], before the signal and before the join; inside [open] before the
    members are set and before the thread is started. *)
Inductive phase : list pinstr -> bool -> thread -> Prop :=
| ph_idle cs o t :
    linked o t -> phase (program cs) o t
| ph_push f cs o t :
    linked o t -> phase (PPush f :: PSignal :: program cs) o t
| ph_signal cs o t :
    linked o t -> phase (PSignal :: program cs) o t
| ph_close_signal cs t :
    joinable t = true -> phase (PSignal :: PJoin :: program cs) false t
| ph_close_join cs t :
    joinable t = true -> phase (PJoin :: program cs) false t
| ph_reopen_signal now ok cs t :
    joinable t = true ->
    phase (PSignal :: PJoin :: POpenInit now ok :: PSpawn :: program cs) false t
| ph_reopen_join now ok cs t :
    joinable t = true ->
    phase (PJoin :: POpenInit now ok :: PSpawn :: program cs) false t
| ph_init now ok cs :
    phase (POpenInit now ok :: PSpawn :: program cs) false NotAThread
| ph_spawn cs :
    phase (PSpawn :: program cs) true NotAThread.

Definition coherent (s : world) : Prop :=
  detached s = 0%nat
  /\ (os_open (frame_info_stream (ctl s)) = true -> is_open (ctl s) = true)
  /\ phase (prod s) (is_open (ctl s)) (frame_writer_thread s).

(** Every [open] among the calls, or among the steps still to take, finds
    that the side file can be created. *)
Definition files_openable (cs : list call) : bool :=
  forallb (fun c => match c with Open _ ok => ok | _ => true end) cs.

Definition opens_succeed (todo : list pinstr) : bool :=
  forallb (fun i => match i with POpenInit _ ok => ok | _ => true end) todo.

(** ** The steps a call of [close] can still be followed by *)

(** The steps the loop can take before it has to wait for a signal, or has
    returned or thrown, with [queued] frames in the queue. *)
Definition loop_steps (s : world) : nat :=
  let queued := length (frame_buffer s) in
  let drain := if frames_available s then (2 * queued + 4)%nat else 0%nat in
  match frame_writer_thread s with
  | AtLoopTest _ => if is_open (ctl s) then S drain else 1%nat
  | AtWait _ => drain
  | AtPop _ => (2 * queued + 3)%nat
  | AtDispatch _ (Some _) => (2 * queued + 4)%nat
  | AtDispatch _ None => 2%nat
  | NotAThread | Returned | Threw _ | Undefined => 0%nat
  end.

(** The steps that a step of [close] stands for: its own, those it leaves
    to the controlling thread, and those its signal allows the loop. *)
Definition close_weight (queued : nat) (i : pinstr) : nat :=
  match i with
  | PCloseTest => (2 * queued + 7)%nat
  | PSignal => (2 * queued + 5)%nat
  | PJoin => 1%nat
  | _ => 0%nat
  end.

Definition steps_left (s : world) : nat :=
  (list_sum (map (close_weight (length (frame_buffer s))) (prod s))
   + loop_steps s)%nat.

(** The stages of a call of [close] on an open writer: before the test,
    before the signal, before the join (where a thread that waits has been
    signalled), and after the call. *)
Definition closing (s : world) : Prop :=
  (prod s = [PCloseTest] /\ is_open (ctl s) = true)
  \/ (is_open (ctl s) = false
      /\ os_open (frame_info_stream (ctl s)) = false
      /\ (prod s = [PSignal; PJoin]
          \/ (prod s = [PJoin]
              /\ forall c, frame_writer_thread s = AtWait c ->
                           frames_available s = true)
          \/ (prod s = [] /\ frame_writer_thread s = NotAThread))).

(** The side file as a sequence of lines, each with its end of line. *)
Definition text (lines : list string) : string :=
  fold_right String.append ""%string lines.

Definition header_lines (c : control) : list string :=
  ["width=" +:+ pretty (width c) +:+ endl;
   "height=" +:+ pretty (height c) +:+ endl].

Definition info_lines (acc : list (TimestampedVideoFrame * Z)) : list string :=
  map (fun a => info_line (fst a) (snd a)) acc.

End Writer.

(** ** Concrete frames and writers used in the examples *)

(** Coordinates are whole numbers here, printed in decimal, and a time stamp
    is printed as its tick count. *)
#[local] Instance demo_text : FrameText Z :=
  {| show_float := pretty; to_iso_string := pretty |}.

Definition demo_frame (w h ch : Z) (px : list byte) (ts : posix_time.ptime)
  : Frame.t Z :=
  Frame.mk w h ch px ts 0 0 0 0 0.

(** A 1x1 RGB frame stamped [ms] milliseconds after [t0]. *)
Definition rgb_at (t0 : posix_time.ptime) (ms : Z) : Frame.t Z :=
  demo_frame 1 1 3 [x01; x02; x03]%byte (t0 + posix_time.milliseconds ms).

Definition demo_control_at (w h fps : Z) : control :=
  {| width := w; height := h; frames_per_second := fps;
     is_open := false;
     frame_duration := Z.quot (posix_time.milliseconds 1000) fps;
     start_time := 0; last_timestamp := 0; frame_index := 0;
     frame_info_stream := {| os_open := false; os_fail := false |};
     frame_info_file := "" |}.

Definition demo_control (fps : Z) : control := demo_control_at 1 1 fps.

(** The state a run reaches (the starting state when the schedule has no
    run). *)
Definition after (sched : list tid) (s : @world Z) : @world Z :=
  match exec sched s with
  | Some s' => s'
  | None => s
  end.

(** A session of five submissions at 10 frames a second, and a schedule in
    which the background thread drains the queue before [close]. *)
Definition session_calls (t0 : posix_time.ptime) : list (@call Z) :=
  [Open t0 true; Write (rgb_at t0 0); Write (rgb_at t0 30);
   Write (rgb_at t0 60); Write (rgb_at t0 100); Write (rgb_at t0 250); Close].

Definition drained_schedule : list tid :=
  repeat Producer 14 ++ repeat Consumer 10
    ++ [Producer; Producer; Consumer; Producer].

(** One accepted frame, then [close]; in [late_schedule] the background
    thread takes its first step only after [close] has cleared [is_open]. *)
Definition one_frame_calls : list (@call Z) :=
  [Open 1000000 true; Write (rgb_at 1000000 0); Close].

Definition timely_schedule : list tid :=
  repeat Producer 6 ++ repeat Consumer 6
    ++ [Producer; Producer; Consumer; Producer].

Definition late_schedule : list tid :=
  repeat Producer 8 ++ [Consumer; Producer].

(** A 2x1 frame with a fourth channel, and a 1x1 frame with two channels. *)
Definition rgbd_frame : Frame.t Z :=
  demo_frame 2 1 4 [x0a; x0b; x0c; x2a; x14; x15; x16; x2b]%byte 0.

Definition two_channel_frame : Frame.t Z :=
  demo_frame 1 1 2 [x01; x02]%byte 0.

(** The session after [open], and the rest of [drained_schedule]. *)
Definition opened_session : @world Z :=
  after (repeat Producer 3) (start (demo_control 10) (session_calls 5000000)).

Definition rest_of_drained_schedule : list tid :=
  repeat Producer 11 ++ repeat Consumer 10
    ++ [Producer; Producer; Consumer; Producer].

(** The session with its three accepted frames queued and the background
    thread at its wait: before [close], and after [close] has signalled. *)
Definition waiting_session : @world Z :=
  after (repeat Producer 14 ++ [Consumer])
    (start (demo_control 10) (session_calls 5000000)).

Definition signalled_session : @world Z :=
  after [Producer; Producer] waiting_session.

(** A frame of width 0 queued ahead of another frame, with the background
    thread about to pop. *)
Definition zero_width_frame : Frame.t Z := demo_frame 0 1 3 [] 0.

Definition zero_width_queued : @world Z :=
  after (repeat Producer 9 ++ [Consumer; Consumer])
    (start (demo_control 10)
       [Open 0 true; Write zero_width_frame; Write (rgb_at 0 200)]).

(** The background thread has served one frame and found the queue empty;
    the controlling thread is inside the next accepted [write]. *)
Definition empty_pop_during_write : @world Z :=
  after (repeat Producer 6 ++ repeat Consumer 5 ++ [Producer])
    (start (demo_control 10)
       [Open 0 true; Write (rgb_at 0 0); Write (rgb_at 0 100)]).

(** A writer that is opened and closed, is then given a frame, and is
    opened and closed once more.  [closed_schedule] runs the first [open]
    and [close]; [reopened_schedule] runs the second [open] and [close],
    the thread of the second session passing its loop test before [close]
    clears [is_open]. *)
Definition reopened_calls : list (@call Z) :=
  [Open 0 true; Close; Write (rgb_at 0 0); Open 5 true; Close].

Definition closed_schedule : list tid :=
  [Producer; Producer; Producer; Producer; Producer; Consumer; Producer].

Definition reopened_schedule : list tid :=
  repeat Producer 3 ++ [Consumer; Producer; Producer]
    ++ repeat Consumer 6 ++ [Producer].

(** A session whose side file cannot be created. *)
Definition unwritable_calls : list (@call Z) :=
  [Open 1000000 false; Write (rgb_at 1000000 0); Close].

(** The members of an open writer that has accepted a million frames. *)
Definition millionth_control : control :=
  {| width := 1; height := 1; frames_per_second := 10;
     is_open := true;
     frame_duration := 100000;
     start_time := 0; last_timestamp := 0; frame_index := 1000000;
     frame_info_stream := {| os_open := true; os_fail := false |};
     frame_info_file := "" |}.

(** The largest frame that 16-bit dimensions allow, with four channels and
    all its 32767 x 32767 x 4 bytes. *)
Definition largest_depth_frame : Frame.t Z :=
  demo_frame 32767 32767 4 (repeat x00%byte (Z.to_nat 4294705156)) 0.

(** * Properties *)

Section Properties.

Context `{FrameText float}.

Local Abbreviation TimestampedVideoFrame := (Frame.t float).

(** *** Arithmetic on [int] *)

Lemma CInt_wrap_small z : - 2 ^ 31 <= z <= CInt.max -> CInt.wrap z = z.
Proof.
  unfold CInt.wrap, CInt.max. intros Hz.
  rewrite Z.mod_small by lia. lia.
Qed.

Lemma CInt_incr_small z : - 2 ^ 31 <= z < CInt.max -> CInt.incr z = z + 1.
Proof.
  unfold CInt.incr, CInt.add. intros Hz. apply CInt_wrap_small. lia.
Qed.

(** *** The conversion loop *)

Lemma store_ok (out : list cell) (k : nat) (v : byte) :
  (k < length out)%nat ->
  store out (Z.of_nat k) v = Some (<[k := Some v]> out).
Proof.
  intros Hk. unfold store.
  replace (0 <=? Z.of_nat k) with true by (symmetry; apply Z.leb_le; lia).
  replace (Z.of_nat k <? Z.of_nat (length out)) with true
    by (symmetry; apply Z.ltb_lt; lia).
  rewrite Nat2Z.id. reflexivity.
Qed.

Lemma ddd_body_ok (pixels : list byte) (out : list cell) (k : nat) (v : byte) :
  4 * Z.of_nat k + 3 <= CInt.max ->
  pixels !! (4 * k + 3)%nat = Some v ->
  (3 * k + 2 < length out)%nat ->
  ddd_body pixels out (Z.of_nat k) =
    Some (<[(3 * k)%nat := Some v]>
            (<[(3 * k + 1)%nat := Some v]>
               (<[(3 * k + 2)%nat := Some v]> out))).
Proof.
  intros Hmax Hv Hlen. unfold ddd_body, CInt.add, CInt.mul.
  unfold CInt.max in Hmax.
  rewrite (CInt_wrap_small (Z.of_nat k * 4)) by (unfold CInt.max; lia).
  rewrite (CInt_wrap_small (Z.of_nat k * 4 + 3)) by (unfold CInt.max; lia).
  rewrite (CInt_wrap_small (Z.of_nat k * 3)) by (unfold CInt.max; lia).
  rewrite (CInt_wrap_small (Z.of_nat k * 3 + 2)) by (unfold CInt.max; lia).
  rewrite (CInt_wrap_small (Z.of_nat k * 3 + 1)) by (unfold CInt.max; lia).
  unfold load.
  replace (0 <=? Z.of_nat k * 4 + 3) with true by (symmetry; apply Z.leb_le; lia).
  replace (Z.to_nat (Z.of_nat k * 4 + 3)) with (4 * k + 3)%nat by lia.
  rewrite Hv.
  replace (Z.of_nat k * 3 + 2) with (Z.of_nat (3 * k + 2)) by lia.
  rewrite store_ok by exact Hlen.
  replace (Z.of_nat k * 3 + 1) with (Z.of_nat (3 * k + 1)) by lia.
  rewrite store_ok by (rewrite length_insert; lia).
  replace (Z.of_nat k * 3) with (Z.of_nat (3 * k)) by lia.
  rewrite store_ok by (rewrite !length_insert; lia).
  reflexivity.
Qed.

Lemma ddd_loop_ok (pixels : list byte) :
  forall (todo k : nat) (out : list cell),
    4 * (Z.of_nat k + Z.of_nat todo) <= CInt.max + 1 ->
    (4 * (k + todo) <= length pixels)%nat ->
    (3 * (k + todo) <= length out)%nat ->
    exists out',
      ddd_loop pixels todo (Z.of_nat k) out = Some out'
      /\ length out' = length out
      /\ (forall j : nat, (k <= j < k + todo)%nat ->
            exists v, pixels !! (4 * j + 3)%nat = Some v
                      /\ out' !! (3 * j)%nat = Some (Some v)
                      /\ out' !! (3 * j + 1)%nat = Some (Some v)
                      /\ out' !! (3 * j + 2)%nat = Some (Some v))
      /\ (forall m : nat, (m < 3 * k)%nat -> out' !! m = out !! m).
Proof.
  induction todo as [|todo IH]; intros k out Hmax Hpix Hout.
  - exists out. simpl. repeat split; auto. intros j Hj. lia.
  - destruct (lookup_lt_is_Some_2 pixels (4 * k + 3)%nat) as [v Hv]; [lia|].
    simpl. rewrite (ddd_body_ok pixels out k v) by (unfold CInt.max in *; lia || assumption).
    rewrite CInt_incr_small by (unfold CInt.max in *; lia).
    replace (Z.of_nat k + 1) with (Z.of_nat (S k)) by lia.
    set (out1 := <[(3 * k)%nat := Some v]> _).
    assert (Hlen1 : length out1 = length out)
      by (unfold out1; rewrite !length_insert; reflexivity).
    destruct (IH (S k) out1) as (out' & Hrun & Hlen & Hdone & Hkeep);
      [lia | lia | lia |].
    exists out'. split; [exact Hrun|]. split; [congruence|]. split.
    + intros j Hj. destruct (decide (j = k)) as [->|Hne].
      * exists v. split; [exact Hv|].
        rewrite !Hkeep by lia. unfold out1.
        rewrite list_lookup_insert_eq by (rewrite !length_insert; lia).
        rewrite list_lookup_insert_ne by lia.
        rewrite list_lookup_insert_eq by (rewrite !length_insert; lia).
        rewrite !list_lookup_insert_ne by lia.
        rewrite list_lookup_insert_eq by lia.
        auto.
      * apply Hdone. lia.
    + intros m Hm. rewrite Hkeep by lia. unfold out1.
      rewrite !list_lookup_insert_ne by lia. reflexivity.
Qed.

Lemma triple_lookup_ext (out1 out2 : list cell) (n : nat) :
  length out1 = (3 * n)%nat ->
  length out2 = (3 * n)%nat ->
  (forall j c : nat, (j < n)%nat -> (c < 3)%nat ->
     out1 !! (3 * j + c)%nat = out2 !! (3 * j + c)%nat) ->
  out1 = out2.
Proof.
  intros H1 H2 Heq. apply list_eq. intros m.
  destruct (decide (m < 3 * n)%nat) as [Hm|Hm].
  - rewrite (Nat.div_mod_eq m 3). apply Heq.
    + apply Nat.Div0.div_lt_upper_bound. lia.
    + apply Nat.mod_upper_bound. lia.
  - rewrite !lookup_ge_None_2 by lia. reflexivity.
Qed.

Lemma extract_DDD_ok (f : TimestampedVideoFrame) :
  Frame.channels f = 4 -> well_formed f -> int_indexed f ->
  exists out,
    extract_DDD f = ConvOk out
    /\ length out = Z.to_nat (Frame.width f * Frame.height f * 3)
    /\ (forall i : nat, (i < Z.to_nat (Frame.width f * Frame.height f))%nat ->
          exists v, Frame.pixels f !! (4 * i + 3)%nat = Some v
                    /\ out !! (3 * i)%nat = Some (Some v)
                    /\ out !! (3 * i + 1)%nat = Some (Some v)
                    /\ out !! (3 * i + 2)%nat = Some (Some v)).
Proof.
  unfold well_formed, int_indexed, extract_DDD. intros Hch Hwf Hint.
  rewrite Hch in Hwf. set (n := Frame.width f * Frame.height f) in *.
  assert (Hn : 0 <= n /\ 4 * n <= CInt.max + 1) by lia.
  unfold CInt.mul. fold n. unfold CInt.max in *.
  rewrite (CInt_wrap_small n) by (unfold CInt.max; lia).
  rewrite (CInt_wrap_small (n * 3)) by (unfold CInt.max; lia).
  replace (n * 3 <? 0) with false by (symmetry; apply Z.ltb_ge; lia).
  destruct (ddd_loop_ok (Frame.pixels f) (Z.to_nat n) 0
              (replicate (Z.to_nat (n * 3)) None))
    as (out & Hrun & Hlen & Hdone & _).
  - unfold CInt.max. lia.
  - lia.
  - rewrite length_replicate. lia.
  - change (Z.of_nat 0) with 0 in Hrun. rewrite Hrun.
    exists out. split; [reflexivity|]. split.
    + rewrite Hlen, length_replicate. reflexivity.
    + intros i Hi. apply Hdone. lia.
Qed.

(** *** Runs *)

Ltac setters :=
  unfold set_ctl, set_frame_buffer, set_frames_available, set_thread,
    set_sink_calls, set_detached, set_prod in *.

(** Take the steps of a run one by one, using the equations in the context
    for the tests they meet. *)
Ltac run :=
  unfold exec, step, producer_step, consumer_step, crashed in *; setters;
  repeat (cbn;
          match goal with
          | E : ?x = _ |- context [?x] => rewrite E
          end);
  cbn.

Lemma exec_app (a b : list tid) (s : world) :
  exec (a ++ b) s =
    match exec a s with Some s1 => exec b s1 | None => None end.
Proof.
  revert s. induction a as [|t a IH]; intros s; simpl; [reflexivity|].
  destruct (step t s) as [s1|]; [apply IH | reflexivity].
Qed.

Lemma exec_producers_add (n m : nat) (s s1 s2 : world) :
  exec (repeat Producer n) s = Some s1 ->
  exec (repeat Producer m) s1 = Some s2 ->
  exec (repeat Producer (n + m)) s = Some s2.
Proof.
  intros H1 H2. rewrite repeat_app, exec_app, H1. exact H2.
Qed.

(** *** One call of [write] *)

Lemma write_accepts_spec (c : control) (f : TimestampedVideoFrame) :
  write_accepts c f = true <->
  frame_duration c <= Frame.timestamp f - last_timestamp c.
Proof. unfold write_accepts. apply Z.leb_le. Qed.

Lemma write_accepted_run (s : world) (f : TimestampedVideoFrame) rest :
  crashed s = false ->
  prod s = write f ++ rest ->
  write_accepts (ctl s) f = true ->
  exec [Producer; Producer; Producer] s =
    Some (set_frames_available true
            (set_frame_buffer (frame_buffer s ++ [f])
               (set_ctl (write_accept f (ctl s)) (set_prod rest s)))).
Proof.
  intros Hc Hp Ha. unfold crashed in Hc.
  destruct (frame_writer_thread s) eqn:Et; try discriminate Hc;
    clear Hc; run; reflexivity.
Qed.

Lemma write_dropped_run (s : world) (f : TimestampedVideoFrame) rest :
  crashed s = false ->
  prod s = write f ++ rest ->
  write_accepts (ctl s) f = false ->
  exec [Producer] s = Some (set_prod rest s).
Proof.
  intros Hc Hp Ha. unfold crashed in Hc.
  destruct (frame_writer_thread s) eqn:Et; try discriminate Hc;
    clear Hc; run; reflexivity.
Qed.

(** *** A sequence of calls of [write] *)

Lemma accepted_head dur last idx (fs : list TimestampedVideoFrame) a :
  accepted dur last idx fs !! 0%nat = Some a ->
  dur <= Frame.timestamp (fst a) - last.
Proof.
  induction fs as [|f fs IH]; simpl; [discriminate|].
  destruct (dur <=? Frame.timestamp f - last) eqn:E.
  - simpl. intros [= <-]. simpl. apply Z.leb_le. exact E.
  - exact IH.
Qed.

Lemma accepted_spaced dur (fs : list TimestampedVideoFrame) :
  forall last idx (i : nat) a b,
    accepted dur last idx fs !! i = Some a ->
    accepted dur last idx fs !! S i = Some b ->
    dur <= Frame.timestamp (fst b) - Frame.timestamp (fst a).
Proof.
  induction fs as [|f fs IH]; intros last idx i a b; simpl; [discriminate|].
  destruct (dur <=? Frame.timestamp f - last) eqn:E.
  - destruct i as [|i]; simpl.
    + intros [= <-] Hb. simpl. eapply accepted_head. exact Hb.
    + apply IH.
  - apply IH.
Qed.

Lemma writes_run (fs : list TimestampedVideoFrame) :
  forall (s : world) rest,
    crashed s = false ->
    prod s = program (map Write fs) ++ rest ->
    exists n s',
      exec (repeat Producer n) s = Some s'
      /\ frame_buffer s' =
           frame_buffer s ++
             map fst (accepted (frame_duration (ctl s)) (last_timestamp (ctl s))
                        (frame_index (ctl s)) fs)
      /\ prod s' = rest
      /\ frame_writer_thread s' = frame_writer_thread s
      /\ sink_calls s' = sink_calls s.
Proof.
  induction fs as [|f fs IH]; intros s rest Hc Hp.
  - exists 0%nat, s. simpl. rewrite app_nil_r. auto.
  - simpl in Hp. destruct (write_accepts (ctl s) f) eqn:Ha.
    + pose proof (write_accepted_run s f _ Hc Hp Ha) as Hrun.
      match type of Hrun with _ = Some ?x => set (s1 := x) in * end.
      destruct (IH s1 rest) as (n & s' & Hn & Hq & Hr & Ht & Hk).
      { unfold crashed in *. exact Hc. }
      { reflexivity. }
      exists (3 + n)%nat, s'. split.
      { eapply exec_producers_add; [exact Hrun | exact Hn]. }
      simpl. unfold write_accepts in Ha. rewrite Ha.
      simpl in Hq. rewrite Hq. simpl. rewrite <- app_assoc. auto.
    + pose proof (write_dropped_run s f _ Hc Hp Ha) as Hrun.
      destruct (IH (set_prod (program (map Write fs) ++ rest) s) rest)
        as (n & s' & Hn & Hq & Hr & Ht & Hk).
      { exact Hc. }
      { reflexivity. }
      exists (1 + n)%nat, s'. split.
      { eapply exec_producers_add; [exact Hrun | exact Hn]. }
      simpl. unfold write_accepts in Ha. rewrite Ha. auto.
Qed.

Lemma scenario_accepted (c : control) (now : posix_time.ptime)
    (f0 f30 f60 f100 f250 : TimestampedVideoFrame) idx :
  frame_duration c = posix_time.milliseconds 100 ->
  Frame.timestamp f0 = now + posix_time.milliseconds 0 ->
  Frame.timestamp f30 = now + posix_time.milliseconds 30 ->
  Frame.timestamp f60 = now + posix_time.milliseconds 60 ->
  Frame.timestamp f100 = now + posix_time.milliseconds 100 ->
  Frame.timestamp f250 = now + posix_time.milliseconds 250 ->
  map fst (accepted (frame_duration c) (now - frame_duration c) idx
             [f0; f30; f60; f100; f250]) = [f0; f100; f250].
Proof.
  intros Hd H0 H30 H60 H100 H250. rewrite Hd.
  unfold posix_time.milliseconds, posix_time.ticks_per_second in *.
  change (1000000 / 1000) with 1000 in *.
  simpl. rewrite H0.
  replace (100 * 1000 <=? now + 0 * 1000 - (now - 100 * 1000)) with true
    by (symmetry; apply Z.leb_le; lia).
  rewrite H30.
  replace (100 * 1000 <=? now + 30 * 1000 - (now + 0 * 1000)) with false
    by (symmetry; apply Z.leb_gt; lia).
  rewrite H60.
  replace (100 * 1000 <=? now + 60 * 1000 - (now + 0 * 1000)) with false
    by (symmetry; apply Z.leb_gt; lia).
  rewrite H100.
  replace (100 * 1000 <=? now + 100 * 1000 - (now + 0 * 1000)) with true
    by (symmetry; apply Z.leb_le; lia).
  rewrite H250.
  replace (100 * 1000 <=? now + 250 * 1000 - (now + 100 * 1000)) with true
    by (symmetry; apply Z.leb_le; lia).
  reflexivity.
Qed.

Lemma write_accept_members (f : TimestampedVideoFrame) (c : control) :
  let c' := write_accept f c in
  last_timestamp c' = Frame.timestamp f
  /\ (- 2 ^ 31 <= frame_index c < 2 ^ 31 - 1 ->
      frame_index c' = frame_index c + 1)
  /\ (os_open (frame_info_stream c) = true ->
      os_fail (frame_info_stream c) = false ->
      frame_info_file c' = frame_info_file c +:+ info_line f (frame_index c)
      /\ frame_info_stream c' = frame_info_stream c)
  /\ (os_open (frame_info_stream c) = false
      \/ os_fail (frame_info_stream c) = true ->
      frame_info_file c' = frame_info_file c
      /\ os_open (frame_info_stream c') = os_open (frame_info_stream c)
      /\ os_fail (frame_info_stream c') = true)
  /\ width c' = width c /\ height c' = height c
  /\ frames_per_second c' = frames_per_second c
  /\ is_open c' = is_open c
  /\ frame_duration c' = frame_duration c
  /\ start_time c' = start_time c.
Proof.
  cbn. split; [reflexivity|]. split.
  { intros Hi. apply CInt_incr_small. unfold CInt.max. lia. }
  split.
  { intros Ho Hf. unfold ofstream_put. rewrite Ho, Hf. cbn. auto. }
  split; [|auto 10].
  unfold ofstream_put.
  destruct (os_fail (frame_info_stream c)) eqn:Ef;
    destruct (os_open (frame_info_stream c)) eqn:Eo; cbn;
    intros [Hx|Hx]; try discriminate Hx; auto.
Qed.

(** C1 (as amended).  [write] accepts a frame exactly when
    [frame.timestamp - last_timestamp >= frame_duration].  An accepted call
    sets [last_timestamp] to the frame's time stamp, adds 1 to [frame_index]
    (an [int]), puts one line on the side stream, appends the frame to the
    queue and raises [frames_available], and changes nothing else.  The line
    reaches the side file, as its new last line, when the stream is open and
    without error; on a stream that is closed or in error the file stays as
    it was and the stream is left in error.  A rejected call leaves the
    writer as it was.  Hence the frames that successive calls accept are at
    least [frame_duration] apart, each from the one accepted before it; at
    10 frames a second, of the submissions at 0, 30, 60, 100 and 250 ms
    after [open] exactly those at 0, 100 and 250 ms are accepted. *)
Theorem write_throttle :
  (forall (s : world) (f : TimestampedVideoFrame) rest,
      crashed s = false ->
      prod s = write f ++ rest ->
      (write_accepts (ctl s) f = true <->
         frame_duration (ctl s) <= Frame.timestamp f - last_timestamp (ctl s))
      /\ (write_accepts (ctl s) f = true ->
            exists s',
              exec [Producer; Producer; Producer] s = Some s'
              /\ last_timestamp (ctl s') = Frame.timestamp f
              /\ (- 2 ^ 31 <= frame_index (ctl s) < 2 ^ 31 - 1 ->
                  frame_index (ctl s') = frame_index (ctl s) + 1)
              /\ (os_open (frame_info_stream (ctl s)) = true ->
                  os_fail (frame_info_stream (ctl s)) = false ->
                  frame_info_file (ctl s')
                  = frame_info_file (ctl s)
                    +:+ (to_iso_string (Frame.timestamp f) +:+ " "
                         +:+ ("frame_"
                              +:+ setfill_setw "0"%char 6
                                    (pretty (frame_index (ctl s))))
                         +:+ " "
                         +:+ ("xyzyp: " +:+ show_float (Frame.xPos f)
                              +:+ " " +:+ show_float (Frame.yPos f)
                              +:+ " " +:+ show_float (Frame.zPos f)
                              +:+ " " +:+ show_float (Frame.yaw f)
                              +:+ " " +:+ show_float (Frame.pitch f))
                         +:+ String "010"%char EmptyString)
                  /\ frame_info_stream (ctl s') = frame_info_stream (ctl s))
              /\ (os_open (frame_info_stream (ctl s)) = false
                  \/ os_fail (frame_info_stream (ctl s)) = true ->
                  frame_info_file (ctl s') = frame_info_file (ctl s)
                  /\ os_open (frame_info_stream (ctl s'))
                     = os_open (frame_info_stream (ctl s))
                  /\ os_fail (frame_info_stream (ctl s')) = true)
              /\ (width (ctl s') = width (ctl s)
                  /\ height (ctl s') = height (ctl s)
                  /\ frames_per_second (ctl s') = frames_per_second (ctl s)
                  /\ is_open (ctl s') = is_open (ctl s)
                  /\ frame_duration (ctl s') = frame_duration (ctl s)
                  /\ start_time (ctl s') = start_time (ctl s))
              /\ frame_buffer s' = frame_buffer s ++ [f]
              /\ frames_available s' = true
              /\ frame_writer_thread s' = frame_writer_thread s
              /\ sink_calls s' = sink_calls s
              /\ detached s' = detached s
              /\ prod s' = rest)
      /\ (write_accepts (ctl s) f = false ->
            exists s',
              exec [Producer] s = Some s'
              /\ ctl s' = ctl s
              /\ frame_buffer s' = frame_buffer s
              /\ frames_available s' = frames_available s
              /\ frame_writer_thread s' = frame_writer_thread s
              /\ sink_calls s' = sink_calls s
              /\ detached s' = detached s
              /\ prod s' = rest))
  /\ (forall (s : world) (fs : list TimestampedVideoFrame) rest,
        crashed s = false ->
        prod s = program (map Write fs) ++ rest ->
        let acc := accepted (frame_duration (ctl s)) (last_timestamp (ctl s))
                     (frame_index (ctl s)) fs in
        (exists n s',
            exec (repeat Producer n) s = Some s'
            /\ frame_buffer s' = frame_buffer s ++ map fst acc
            /\ prod s' = rest)
        /\ (forall (i : nat) a b,
              acc !! i = Some a -> acc !! S i = Some b ->
              frame_duration (ctl s)
                <= Frame.timestamp (fst b) - Frame.timestamp (fst a)))
  /\ (forall (s : world) (c : control) w h t0 i0 file0 now ok
             (f0 f30 f60 f100 f250 : TimestampedVideoFrame) rest,
        VideoFrameWriter_new w h 10 t0 i0 file0 = Some c ->
        ctl s = open_control now ok c ->
        crashed s = false ->
        Frame.timestamp f0 = now + posix_time.milliseconds 0 ->
        Frame.timestamp f30 = now + posix_time.milliseconds 30 ->
        Frame.timestamp f60 = now + posix_time.milliseconds 60 ->
        Frame.timestamp f100 = now + posix_time.milliseconds 100 ->
        Frame.timestamp f250 = now + posix_time.milliseconds 250 ->
        prod s = program (map Write [f0; f30; f60; f100; f250]) ++ rest ->
        exists n s',
          exec (repeat Producer n) s = Some s'
          /\ frame_buffer s' = frame_buffer s ++ [f0; f100; f250]
          /\ prod s' = rest).
Proof.
  split; [|split].
  - intros s f rest Hc Hp. split; [apply write_accepts_spec|]. split.
    + intros Ha. eexists. split; [apply write_accepted_run; eassumption|].
      destruct (write_accept_members f (ctl s))
        as (Hl & Hi & Hgood & Hbad & Hrest).
      cbn. auto 20.
    + intros Ha. eexists.
      split; [apply (write_dropped_run s f rest); assumption|].
      cbn. auto 10.
  - intros s fs rest Hc Hp acc. split.
    + destruct (writes_run fs s rest Hc Hp) as (n & s' & Hn & Hq & Hr & _).
      exists n, s'. auto.
    + intros i a b. apply accepted_spaced.
  - intros s c w h t0 i0 file0 now ok f0 f30 f60 f100 f250 rest
      Hnew Hctl Hc H0 H30 H60 H100 H250 Hp.
    destruct (writes_run _ s rest Hc Hp) as (n & s' & Hn & Hq & Hr & _).
    exists n, s'. split; [exact Hn|]. split; [|exact Hr].
    rewrite Hq. f_equal. rewrite Hctl.
    assert (Hd : frame_duration (open_control now ok c)
                 = posix_time.milliseconds 100).
    { unfold VideoFrameWriter_new in Hnew. cbn in Hnew.
      injection Hnew as <-. reflexivity. }
    cbn [last_timestamp open_control frame_index].
    change (frame_duration c) with (frame_duration (open_control now ok c)).
    apply scenario_accepted; assumption.
Qed.

(** *** What the sink receives *)

(** C3 (as amended).  The buffer handed to the sink depends only on the
    frame's pixels, width, height and channel count.  For three channels it
    is the frame's own pixel buffer.  For four channels, when the pixel
    buffer has its width x height x 4 bytes and these are at most 2^31, it
    has width x height x 3 bytes and bytes 3i, 3i+1 and 3i+2 all equal byte
    4i+3 of the input, whatever the other input bytes are; when every
    fourth input byte is [V], every output byte is [V]. *)
Theorem pixel_conversion (f : TimestampedVideoFrame) :
  let n := Z.to_nat (Frame.width f * Frame.height f) in
  (forall g : TimestampedVideoFrame,
      Frame.pixels g = Frame.pixels f -> Frame.width g = Frame.width f ->
      Frame.height g = Frame.height f -> Frame.channels g = Frame.channels f ->
      sink_buffer g = sink_buffer f)
  /\ (Frame.channels f = 3 -> sink_buffer f = ConvOk (Some <$> Frame.pixels f))
  /\ (Frame.channels f = 4 -> well_formed f -> int_indexed f ->
      exists out,
        sink_buffer f = ConvOk out
        /\ length out = Z.to_nat (Frame.width f * Frame.height f * 3)
        /\ (forall i : nat, (i < n)%nat ->
              exists v, Frame.pixels f !! (4 * i + 3)%nat = Some v
                        /\ out !! (3 * i)%nat = Some (Some v)
                        /\ out !! (3 * i + 1)%nat = Some (Some v)
                        /\ out !! (3 * i + 2)%nat = Some (Some v))
        /\ (forall g : TimestampedVideoFrame,
              Frame.channels g = 4 -> well_formed g ->
              Frame.width g = Frame.width f -> Frame.height g = Frame.height f ->
              (forall i : nat, (i < n)%nat ->
                 Frame.pixels g !! (4 * i + 3)%nat
                 = Frame.pixels f !! (4 * i + 3)%nat) ->
              sink_buffer g = ConvOk out)
        /\ (forall V : byte,
              (forall i : nat, (i < n)%nat ->
                 Frame.pixels f !! (4 * i + 3)%nat = Some V) ->
              out = replicate (Z.to_nat (Frame.width f * Frame.height f * 3))
                      (Some V)))
  /\ (forall (s : world) (count : Z) out,
        Frame.width f <> 0 -> sink_buffer f = ConvOk out ->
        sink_calls (dispatch count (Some f) s)
        = sink_calls s ++ [{| sc_pixels := out; sc_width := Frame.width f;
                              sc_height := Frame.height f;
                              sc_index := count |}]).
Proof.
  intros n. split; [|split; [|split]].
  - intros g Hp Hw Hh Hc. unfold sink_buffer, extract_DDD.
    rewrite Hp, Hw, Hh, Hc. reflexivity.
  - intros Hc. unfold sink_buffer. rewrite Hc. reflexivity.
  - intros Hc Hwf Hint.
    destruct (extract_DDD_ok f Hc Hwf Hint) as (out & Hrun & Hlen & Hout).
    exists out. split; [unfold sink_buffer; rewrite Hc; exact Hrun|].
    split; [exact Hlen|]. split; [exact Hout|].
    assert (Hn3 : length out = (3 * n)%nat).
    { rewrite Hlen. unfold well_formed in Hwf. subst n. lia. }
    split.
    + intros g Hcg Hwfg Hw Hh Hsame.
      assert (Hintg : int_indexed g).
      { unfold int_indexed, well_formed in *. rewrite Hwfg, Hw, Hh, Hcg.
        rewrite Hc in Hwf. lia. }
      destruct (extract_DDD_ok g Hcg Hwfg Hintg) as (out' & Hrun' & Hlen' & Hout').
      unfold sink_buffer. rewrite Hcg, Hrun'. f_equal.
      rewrite Hw, Hh in Hlen', Hout'. fold n in Hout'.
      apply (triple_lookup_ext out' out n); [lia | exact Hn3 |].
      intros j c Hj Hcl.
      destruct (Hout j Hj) as (v & Hv & E0 & E1 & E2).
      destruct (Hout' j Hj) as (v' & Hv' & E0' & E1' & E2').
      rewrite Hsame, Hv in Hv' by exact Hj. injection Hv' as <-.
      destruct c as [|[|[|c]]]; [| | |lia].
      * rewrite Nat.add_0_r, E0, E0'. reflexivity.
      * rewrite E1, E1'. reflexivity.
      * rewrite E2, E2'. reflexivity.
    + intros V HV.
      apply (triple_lookup_ext out _ n); [exact Hn3 | |].
      { rewrite length_replicate. lia. }
      intros j c Hj Hcl.
      destruct (Hout j Hj) as (v & Hv & E0 & E1 & E2).
      rewrite HV in Hv by exact Hj. injection Hv as <-.
      rewrite lookup_replicate_2 by lia.
      destruct c as [|[|[|c]]]; [| | |lia].
      * rewrite Nat.add_0_r. exact E0.
      * exact E1.
      * exact E2.
  - intros s count out Hw Hout. unfold dispatch. cbn.
    destruct (Z.eqb_spec (Frame.width f) 0) as [E|_]; [contradiction|].
    rewrite Hout. reflexivity.
Qed.

(** *** The controlling thread's members along a run *)

Lemma step_finish (t : tid) (s s' : world) :
  step t s = Some s' -> finish (prod s') (ctl s') = finish (prod s) (ctl s).
Proof.
  destruct t; cbn; unfold producer_step, consumer_step, dispatch.
  - destruct (crashed s); [discriminate|].
    destruct (prod s) as [|i rest]; [discriminate|].
    destruct i; cbn; intros Hs; repeat case_match; simplify_eq; cbn;
      repeat match goal with E : _ = _ |- _ => rewrite E end; reflexivity.
  - intros Hs; repeat case_match; simplify_eq; reflexivity.
Qed.

Lemma exec_finish (sched : list tid) :
  forall s s' : world,
    exec sched s = Some s' ->
    finish (prod s') (ctl s') = finish (prod s) (ctl s).
Proof.
  induction sched as [|t sched IH]; intros s s'; simpl.
  - intros [= <-]. reflexivity.
  - destruct (step t s) as [s1|] eqn:E; [|discriminate].
    intros Hs. rewrite (IH _ _ Hs). eapply step_finish, E.
Qed.

Lemma finish_app (a b : list pinstr) (c : control) :
  finish (a ++ b) c = finish b (finish a c).
Proof. unfold finish. apply fold_left_app. Qed.

Lemma program_cons (c : call) (cs : list (@call float)) :
  program (c :: cs) = call_steps c ++ program cs.
Proof. reflexivity. Qed.

Lemma program_app (cs1 cs2 : list (@call float)) :
  program (cs1 ++ cs2) = program cs1 ++ program cs2.
Proof. unfold program. rewrite map_app, concat_app. reflexivity. Qed.

(** *** Text *)

Lemma string_app_cons (x : ascii) (a b : string) :
  String x a +:+ b = String x (a +:+ b).
Proof. reflexivity. Qed.

Lemma string_app_assoc (a b c : string) : (a +:+ b) +:+ c = a +:+ (b +:+ c).
Proof.
  induction a as [|x a IH]; [reflexivity|].
  rewrite !string_app_cons, IH. reflexivity.
Qed.

Lemma string_app_nil_r (a : string) : a +:+ "" = a.
Proof.
  induction a as [|x a IH]; [reflexivity|].
  rewrite string_app_cons, IH. reflexivity.
Qed.

Lemma string_length_app (a b : string) :
  String.length (a +:+ b) = (String.length a + String.length b)%nat.
Proof.
  induction a as [|x a IH]; [reflexivity|].
  rewrite string_app_cons. cbn. rewrite IH. reflexivity.
Qed.

Lemma text_app (l1 l2 : list string) : text (l1 ++ l2) = text l1 +:+ text l2.
Proof.
  induction l1 as [|x l1 IH]; [reflexivity|].
  change (text ((x :: l1) ++ l2)) with (x +:+ text (l1 ++ l2)).
  change (text (x :: l1)) with (x +:+ text l1).
  rewrite IH, string_app_assoc. reflexivity.
Qed.

(** *** The side file of a session *)

Lemma finish_open (now : posix_time.ptime) (ok : bool) (c : control) :
  (os_open (frame_info_stream c) = true -> is_open c = true) ->
  finish (open now ok) c =
    {| width := width c; height := height c;
       frames_per_second := frames_per_second c;
       is_open := true;
       frame_duration := frame_duration c;
       start_time := now;
       last_timestamp := now - frame_duration c;
       frame_index := 0;
       frame_info_stream := {| os_open := ok; os_fail := negb ok |};
       frame_info_file :=
         if ok then text (header_lines c) else frame_info_file c |}.
Proof.
  intros Ho. unfold finish, open, close. cbn.
  destruct (is_open c) eqn:E; cbn; unfold open_control; cbn;
    unfold ofstream_open, ofstream_close;
    destruct (os_open (frame_info_stream c)) eqn:Eo;
    try (specialize (Ho eq_refl); discriminate Ho);
    destruct ok; cbn; rewrite ?string_app_nil_r; reflexivity.
Qed.

Lemma finish_cons (i : pinstr) (todo : list pinstr) (c : control) :
  finish (i :: todo) c = finish todo (control_effect i c).
Proof. reflexivity. Qed.

Lemma put_on_open_stream (line : string) (c : control) :
  os_open (frame_info_stream c) = true ->
  os_fail (frame_info_stream c) = false ->
  ofstream_put line (frame_info_stream c) (frame_info_file c)
  = (frame_info_stream c, frame_info_file c +:+ line).
Proof. intros Ho Hf. unfold ofstream_put. rewrite Hf, Ho. reflexivity. Qed.

Lemma finish_writes (fs : list TimestampedVideoFrame) :
  forall c : control,
    os_open (frame_info_stream c) = true ->
    os_fail (frame_info_stream c) = false ->
    let c' := finish (program (map Write fs)) c in
    frame_info_file c' =
      frame_info_file c +:+
        text (info_lines (accepted (frame_duration c) (last_timestamp c)
                            (frame_index c) fs))
    /\ frame_info_stream c' = frame_info_stream c
    /\ is_open c' = is_open c.
Proof.
  induction fs as [|f fs IH]; intros c Ho Hf.
  - cbn. rewrite string_app_nil_r. auto.
  - cbn zeta.
    change (program (map Write (f :: fs)))
      with (PWriteGate f :: program (map Write fs)).
    rewrite finish_cons. cbn [control_effect accepted]. unfold write_accepts.
    destruct (frame_duration c <=? Frame.timestamp f - last_timestamp c) eqn:E.
    + pose proof (put_on_open_stream (info_line f (frame_index c)) c Ho Hf)
        as Hput.
      destruct (IH (write_accept f c)) as (Hfile & Hst & Hop).
      { unfold write_accept. cbn. rewrite Hput. exact Ho. }
      { unfold write_accept. cbn. rewrite Hput. exact Hf. }
      rewrite Hfile, Hst, Hop. unfold write_accept. cbn.
      rewrite Hput. cbn. rewrite string_app_assoc. auto.
    + apply IH; assumption.
Qed.

Lemma accepted_indices (dur : posix_time.time_duration)
    (fs : list TimestampedVideoFrame) :
  forall last (k : nat),
    Z.of_nat k + Z.of_nat (length fs) <= CInt.max ->
    map snd (accepted dur last (Z.of_nat k) fs)
    = map Z.of_nat (seq k (length (accepted dur last (Z.of_nat k) fs))).
Proof.
  induction fs as [|f fs IH]; intros last k Hk; [reflexivity|].
  cbn [accepted]. cbn [length] in Hk.
  destruct (dur <=? Frame.timestamp f - last).
  - rewrite CInt_incr_small by (unfold CInt.max in *; lia).
    replace (Z.of_nat k + 1) with (Z.of_nat (S k)) by lia.
    cbn. f_equal. apply IH. lia.
  - apply IH. lia.
Qed.

Lemma pretty_N_go_length (k : nat) :
  forall (x : N) (acc : string),
    (x < 10 ^ N.of_nat k)%N ->
    (String.length (pretty_N_go x acc) <= k + String.length acc)%nat.
Proof.
  induction k as [|k IH]; intros x acc Hx.
  - assert (x = 0%N) as -> by (cbn in Hx; lia).
    rewrite pretty_N_go_0. lia.
  - destruct (decide (x = 0%N)) as [->|Hne].
    + rewrite pretty_N_go_0. lia.
    + rewrite pretty_N_go_step by lia.
      etransitivity; [apply IH|cbn; lia].
      rewrite Nat2N.inj_succ, N.pow_succ_r' in Hx.
      apply N.Div0.div_lt_upper_bound. lia.
Qed.

Lemma frame_name_six_digits (idx : Z) :
  0 <= idx < 1000000 ->
  String.length (setfill_setw "0"%char 6 (pretty idx)) = 6%nat.
Proof.
  intros Hidx.
  assert (Hlen : (String.length (pretty idx) <= 6)%nat).
  { destruct idx as [|p|p]; [cbn; lia | | lia].
    change (pretty (Z.pos p)) with (pretty (N.pos p)).
    unfold pretty, pretty_N. destruct (decide (N.pos p = 0%N)); [cbn; lia|].
    etransitivity; [apply (pretty_N_go_length 6)|cbn; lia].
    cbn. lia. }
  unfold setfill_setw. rewrite string_length_app.
  assert (Hrep : forall n, String.length (string_of_list_ascii (repeat "0"%char n)) = n).
  { induction n as [|n IHn]; cbn; [reflexivity | rewrite IHn; reflexivity]. }
  rewrite Hrep. lia.
Qed.

Lemma write_line_before_push (s : world) (f : TimestampedVideoFrame) rest :
  crashed s = false ->
  prod s = write f ++ rest ->
  write_accepts (ctl s) f = true ->
  os_open (frame_info_stream (ctl s)) = true ->
  os_fail (frame_info_stream (ctl s)) = false ->
  exists s1,
    step Producer s = Some s1
    /\ frame_info_file (ctl s1)
       = frame_info_file (ctl s) +:+ info_line f (frame_index (ctl s))
    /\ frame_buffer s1 = frame_buffer s
    /\ prod s1 = PPush f :: PSignal :: rest.
Proof.
  intros Hc Hp Ha Ho Hf. eexists. split.
  - cbn. unfold producer_step. rewrite Hc, Hp. cbn. rewrite Ha. reflexivity.
  - cbn. unfold write_accept. cbn. rewrite put_on_open_stream by assumption.
    auto.
Qed.

Lemma digit_value_char (x : N) :
  (x < 10)%N -> digit_value (pretty_N_char x) = x.
Proof.
  intros Hx.
  assert (x = 0 \/ x = 1 \/ x = 2 \/ x = 3 \/ x = 4 \/ x = 5 \/ x = 6
          \/ x = 7 \/ x = 8 \/ x = 9)%N as Hcases by lia.
  repeat destruct Hcases as [->|Hcases]; try reflexivity.
  subst x. reflexivity.
Qed.

Lemma read_pretty_go (x : N) :
  forall s : string,
    exists k : N,
      forall acc : N,
        read_digits (pretty_N_go x s) acc
        = read_digits s (acc * 10 ^ k + x)%N.
Proof.
  induction (N.lt_wf_0 x) as [x _ IH]. intros s.
  destruct (decide (x = 0%N)) as [->|Hne].
  - exists 0%N. intros acc. rewrite pretty_N_go_0. f_equal. lia.
  - rewrite pretty_N_go_step by lia.
    destruct (IH (x `div` 10)%N) with (s := String (pretty_N_char (x `mod` 10)) s)
      as [k Hk].
    { apply N.div_lt; lia. }
    exists (k + 1)%N. intros acc. rewrite Hk. cbn [read_digits].
    rewrite digit_value_char by (apply N.mod_lt; lia).
    f_equal. rewrite N.pow_add_r, N.pow_1_r.
    pose proof (N.Div0.div_mod x 10). lia.
Qed.

Lemma read_pretty (idx : Z) :
  0 <= idx -> read_digits (pretty idx) 0 = Z.to_N idx.
Proof.
  intros Hidx. destruct idx as [|p|p]; [reflexivity| |lia].
  change (pretty (Z.pos p)) with (pretty (N.pos p)).
  unfold pretty, pretty_N. destruct (decide (N.pos p = 0%N)); [discriminate|].
  destruct (read_pretty_go (N.pos p) "") as [k Hk]. rewrite Hk. cbn. lia.
Qed.

Lemma read_leading_zeros (n : nat) (s : string) :
  read_digits (string_of_list_ascii (repeat "0"%char n) +:+ s) 0
  = read_digits s 0.
Proof.
  induction n as [|n IH]; [reflexivity|].
  cbn [repeat string_of_list_ascii]. rewrite string_app_cons.
  cbn [read_digits]. exact IH.
Qed.

Lemma setfill_setw_length (c : ascii) (n : nat) (digits : string) :
  (n <= String.length (setfill_setw c n digits))%nat.
Proof.
  unfold setfill_setw. rewrite string_length_app.
  assert (Hrep : forall k,
             String.length (string_of_list_ascii (repeat c k)) = k).
  { induction k as [|k IHk]; cbn; [reflexivity | rewrite IHk; reflexivity]. }
  rewrite Hrep. lia.
Qed.

(** C6 (as amended).  In a session whose side file could be created, that
    is [open], any number of calls of [write] and possibly [close], the side
    file holds the two header lines [width=] and [height=] followed by one
    line for each accepted frame, in the order of acceptance, each line
    ended by a newline character.  The line of a frame is its time stamp,
    [frame_] and the value [frame_index] had when the frame was accepted,
    padded with zeros to at least six digits (exactly six below one
    million), then [xyzyp:] and the five coordinates.  The values of
    [frame_index] are 0, 1, 2, ...  The step of [write] that puts the line
    on the file comes before the step that appends the frame to the
    queue. *)
Theorem sidecar_contents (s : world) (now : posix_time.ptime)
    (fs : list TimestampedVideoFrame) (closing : bool)
    (sched : list tid) (s' : world) :
  (os_open (frame_info_stream (ctl s)) = true -> is_open (ctl s) = true) ->
  prod s = program (Open now true :: map Write fs
                      ++ (if closing then [Close] else [])) ->
  exec sched s = Some s' ->
  prod s' = [] ->
  let acc := accepted (frame_duration (ctl s)) (now - frame_duration (ctl s))
               0 fs in
  let newline := String "010"%char EmptyString in
  let line (f : TimestampedVideoFrame) (idx : Z) :=
    to_iso_string (Frame.timestamp f) +:+ " "
    +:+ ("frame_" +:+ setfill_setw "0"%char 6 (pretty idx))
    +:+ " "
    +:+ ("xyzyp: " +:+ show_float (Frame.xPos f)
         +:+ " " +:+ show_float (Frame.yPos f)
         +:+ " " +:+ show_float (Frame.zPos f)
         +:+ " " +:+ show_float (Frame.yaw f)
         +:+ " " +:+ show_float (Frame.pitch f))
    +:+ newline in
  frame_info_file (ctl s')
  = ("width=" +:+ pretty (width (ctl s)) +:+ newline)
    +:+ ("height=" +:+ pretty (height (ctl s)) +:+ newline)
    +:+ fold_right String.append ""%string
          (map (fun a => line (fst a) (snd a)) acc)
  /\ length (map (fun a => line (fst a) (snd a)) acc) = length acc
  /\ (Z.of_nat (length fs) <= 2 ^ 31 - 1 ->
      map snd acc = map Z.of_nat (seq 0 (length acc)))
  /\ (forall idx : Z,
        (6 <= String.length (setfill_setw "0"%char 6 (pretty idx)))%nat
        /\ (0 <= idx < 1000000 ->
            String.length (setfill_setw "0"%char 6 (pretty idx)) = 6%nat)
        /\ (0 <= idx ->
            read_digits (setfill_setw "0"%char 6 (pretty idx)) 0
            = Z.to_N idx))
  /\ (forall (s0 : world) (f : TimestampedVideoFrame) rest,
        crashed s0 = false ->
        prod s0 = write f ++ rest ->
        write_accepts (ctl s0) f = true ->
        os_open (frame_info_stream (ctl s0)) = true ->
        os_fail (frame_info_stream (ctl s0)) = false ->
        exists s1,
          step Producer s0 = Some s1
          /\ frame_info_file (ctl s1)
             = frame_info_file (ctl s0) +:+ line f (frame_index (ctl s0))
          /\ frame_buffer s1 = frame_buffer s0
          /\ prod s1 = PPush f :: PSignal :: rest).
Proof.
  intros Ho Hp Hrun Hend acc newline line.
  split; [|split; [apply length_map|split; [|split]]].
  - apply exec_finish in Hrun. rewrite Hend, Hp in Hrun.
    cbn [finish fold_left] in Hrun.
    rewrite Hrun, program_cons, program_app, !finish_app.
    cbn [call_steps]. rewrite finish_open by exact Ho.
    match goal with
    | |- context [finish (program (map Write fs)) ?c] => set (c1 := c)
    end.
    destruct (finish_writes fs c1) as (Hfile & Hst & Hop); [reflexivity..|].
    assert (Htail : frame_info_file
                      (finish (program (if closing then [Close] else []))
                         (finish (program (map Write fs)) c1))
                    = frame_info_file (finish (program (map Write fs)) c1)).
    { destruct closing; [|reflexivity]. cbn. rewrite Hop. reflexivity. }
    rewrite Htail, Hfile.
    change (frame_info_file c1)
      with (("width=" +:+ pretty (width (ctl s)) +:+ endl)
            +:+ (("height=" +:+ pretty (height (ctl s)) +:+ endl)
                 +:+ ""%string)).
    rewrite string_app_nil_r, string_app_assoc. reflexivity.
  - intros Hlen. apply (accepted_indices _ fs _ 0%nat).
    unfold CInt.max. cbn [Z.of_nat Z.add]. exact Hlen.
  - intros idx. split; [apply setfill_setw_length|].
    split; [apply frame_name_six_digits|].
    intros Hidx. unfold setfill_setw.
    rewrite read_leading_zeros. apply read_pretty, Hidx.
  - apply write_line_before_push.
Qed.

(** *** [close] and a second [open] *)

Lemma consumer_step_frame (s s' : @world float) :
  consumer_step s = Some s' ->
  ctl s' = ctl s /\ prod s' = prod s /\ detached s' = detached s.
Proof.
  unfold consumer_step, dispatch. intros Hs.
  repeat case_match; simplify_eq; auto.
Qed.





(** *** [write] on a closed writer *)

Lemma closed_step (t : tid) (s s' : world) :
  frame_writer_thread s = NotAThread ->
  forallb no_reopen (prod s) = true ->
  step t s = Some s' ->
  frame_writer_thread s' = NotAThread
  /\ forallb no_reopen (prod s') = true
  /\ sink_calls s' = sink_calls s
  /\ exists q, frame_buffer s' = frame_buffer s ++ q.
Proof.
  intros Ht Hp Hs. destruct t; cbn in Hs.
  - unfold producer_step in Hs. destruct (crashed s); [discriminate|].
    destruct (prod s) as [|i rest] eqn:Ep; [discriminate|].
    cbn in Hp. apply andb_true_iff in Hp as [Hi Hrest].
    destruct i; cbn in Hs; try discriminate Hi;
      repeat case_match; simplify_eq; cbn;
      repeat split; try assumption; try reflexivity;
      try (exists []; rewrite app_nil_r; reflexivity);
      try (eexists; reflexivity).
  - unfold consumer_step in Hs. rewrite Ht in Hs. discriminate.
Qed.

Lemma closed_run (sched : list tid) :
  forall s s' : world,
    frame_writer_thread s = NotAThread ->
    forallb no_reopen (prod s) = true ->
    exec sched s = Some s' ->
    frame_writer_thread s' = NotAThread
    /\ sink_calls s' = sink_calls s
    /\ exists q, frame_buffer s' = frame_buffer s ++ q.
Proof.
  induction sched as [|t sched IH]; intros s s' Ht Hp; simpl.
  - intros [= <-]. repeat split; [exact Ht|]. exists []. rewrite app_nil_r.
    reflexivity.
  - destruct (step t s) as [s1|] eqn:E; [|discriminate]. intros Hs.
    destruct (closed_step t s s1 Ht Hp E) as (Ht1 & Hp1 & Hk1 & q1 & Hq1).
    destruct (IH s1 s' Ht1 Hp1 Hs) as (Ht' & Hk' & q' & Hq').
    split; [exact Ht'|]. split; [congruence|].
    exists (q1 ++ q'). rewrite Hq', Hq1, app_assoc. reflexivity.
Qed.

(** C9 (as amended).  [write] does not read [is_open].  On a writer that
    has been closed, a frame that passes the throttle still sets
    [last_timestamp], adds 1 to [frame_index] (an [int]), is put on the
    closed stream (which sets the stream's error flag and adds nothing to
    the file), is appended to the queue and raises [frames_available]; the
    call completes.  No thread is there to take the frame: as long as the
    writer is not opened again it stays in the queue and the sink is not
    called. *)
Theorem write_after_close (s : world) (f : TimestampedVideoFrame) rest :
  is_open (ctl s) = false ->
  frame_writer_thread s = NotAThread ->
  os_open (frame_info_stream (ctl s)) = false ->
  write_accepts (ctl s) f = true ->
  prod s = write f ++ rest ->
  exists s',
    exec [Producer; Producer; Producer] s = Some s'
    /\ last_timestamp (ctl s') = Frame.timestamp f
    /\ frame_index (ctl s') = CInt.incr (frame_index (ctl s))
    /\ (- 2 ^ 31 <= frame_index (ctl s) < 2 ^ 31 - 1 ->
        frame_index (ctl s') = frame_index (ctl s) + 1)
    /\ frame_info_file (ctl s') = frame_info_file (ctl s)
    /\ os_fail (frame_info_stream (ctl s')) = true
    /\ os_open (frame_info_stream (ctl s')) = false
    /\ frame_buffer s' = frame_buffer s ++ [f]
    /\ frames_available s' = true
    /\ is_open (ctl s') = false
    /\ prod s' = rest
    /\ consumer_step s' = None
    /\ (forallb no_reopen rest = true ->
        forall sched s'',
          exec sched s' = Some s'' ->
          frame_writer_thread s'' = NotAThread
          /\ sink_calls s'' = sink_calls s
          /\ exists q, frame_buffer s'' = frame_buffer s ++ [f] ++ q).
Proof.
  intros Hopen Ht Hos Ha Hp.
  assert (Hc : crashed s = false) by (unfold crashed; rewrite Ht; reflexivity).
  eexists. split; [apply write_accepted_run; eassumption|].
  cbn. unfold write_accept, ofstream_put. cbn. rewrite Hos.
  unfold consumer_step. cbn. rewrite Ht.
  split; [reflexivity|]. split; [reflexivity|].
  split; [intros Hi; apply CInt_incr_small; unfold CInt.max; lia|].
  split; [destruct (os_fail (frame_info_stream (ctl s))); reflexivity|].
  split; [destruct (os_fail (frame_info_stream (ctl s))) eqn:E; cbn;
          [exact E | reflexivity]|].
  split; [destruct (os_fail (frame_info_stream (ctl s))) eqn:E; cbn;
          [exact Hos | reflexivity]|].
  split; [reflexivity|]. split; [reflexivity|]. split; [exact Hopen|].
  split; [reflexivity|]. split; [reflexivity|].
  intros Hrest sched s'' Hrun.
  apply closed_run in Hrun; [|exact Ht|exact Hrest].
  destruct Hrun as (Ht' & Hk & q & Hq). cbn in *.
  split; [exact Ht'|]. split; [exact Hk|].
  exists q. rewrite Hq, <- app_assoc. reflexivity.
Qed.

(** *** A frame with an unsupported number of channels *)

Lemma crashed_no_step (s : world) (t : tid) :
  crashed s = true -> step t s = None.
Proof.
  intros Hc. destruct t; cbn; unfold producer_step, consumer_step.
  - rewrite Hc. reflexivity.
  - unfold crashed in Hc. destruct (frame_writer_thread s); try discriminate;
      reflexivity.
Qed.

Lemma crashed_no_run (sched : list tid) (s s' : world) :
  crashed s = true -> exec sched s = Some s' -> s' = s /\ sched = [].
Proof.
  intros Hc. destruct sched as [|t sched]; simpl.
  - intros [= <-]. auto.
  - rewrite crashed_no_step by exact Hc. discriminate.
Qed.

(** C4.  When the loop takes from the queue a frame that is not the
    no-frame value and has neither 3 nor 4 channels, it throws
    [runtime_error]: the sink is not called for the frame, and since nothing
    catches the exception no step follows it, so the sink is not called for
    a later frame either and nothing is tried again. *)
Theorem unsupported_channels_fatal (s : world) (count : Z)
    (f : TimestampedVideoFrame) (q : list TimestampedVideoFrame) :
  frame_writer_thread s = AtPop count ->
  frame_buffer s = f :: q ->
  Frame.width f <> 0 ->
  Frame.channels f <> 3 ->
  Frame.channels f <> 4 ->
  exists s',
    exec [Consumer; Consumer] s = Some s'
    /\ frame_writer_thread s' =
         Threw (runtime_error "Unsupported number of channels")
    /\ sink_calls s' = sink_calls s
    /\ frame_buffer s' = q
    /\ (forall t, step t s' = None)
    /\ (forall sched s'', exec sched s' = Some s'' ->
          s'' = s' /\ sink_calls s'' = sink_calls s).
Proof.
  intros Ht Hq Hw H3 H4.
  assert (Hd : forall s0 : world,
             dispatch count (Some f) s0 =
             set_thread (Threw (runtime_error "Unsupported number of channels")) s0).
  { intros s0. unfold dispatch, sink_buffer. cbn.
    destruct (Z.eqb_spec (Frame.width f) 0); [contradiction|].
    destruct (Z.eqb_spec (Frame.channels f) 4); [contradiction|].
    destruct (Z.eqb_spec (Frame.channels f) 3); [contradiction|].
    reflexivity. }
  eexists. split.
  { unfold exec, step, consumer_step. rewrite Ht, Hq. cbn. rewrite Hd.
    reflexivity. }
  cbn. split; [reflexivity|]. split; [reflexivity|]. split; [reflexivity|].
  split.
  - intros t. apply crashed_no_step. reflexivity.
  - intros sched s'' Hs. apply crashed_no_run in Hs; [|reflexivity].
    destruct Hs as [-> _]. split; reflexivity.
Qed.

(** *** The first frame after [open] *)

(** C5 (as amended).  [open] sets [last_timestamp] to
    [start_time - frame_duration]; the frame submitted first after [open] is
    accepted exactly when its time stamp is not earlier than [start_time]. *)
Theorem first_frame_after_open (c : control) (now : posix_time.ptime)
    (ok : bool)
    (f : TimestampedVideoFrame) :
  let c' := open_control now ok c in
  start_time c' = now
  /\ last_timestamp c' = start_time c' - frame_duration c'
  /\ frame_duration c' = frame_duration c
  /\ (write_accepts c' f = true <-> start_time c' <= Frame.timestamp f).
Proof.
  cbn. repeat split; try reflexivity.
  - unfold write_accepts. cbn. intros E. apply Z.leb_le in E. lia.
  - unfold write_accepts. cbn. intros E. apply Z.leb_le. lia.
Qed.

(** *** The frame duration *)

Lemma step_frame_duration (t : tid) (s s' : world) :
  step t s = Some s' -> frame_duration (ctl s') = frame_duration (ctl s).
Proof.
  destruct t; cbn; unfold producer_step, consumer_step, dispatch.
  - destruct (crashed s); [discriminate|].
    destruct (prod s) as [|i rest]; [discriminate|].
    destruct i; cbn; intros Hs; repeat case_match; simplify_eq; reflexivity.
  - intros Hs; repeat case_match; simplify_eq; reflexivity.
Qed.

Lemma exec_frame_duration (sched : list tid) :
  forall s s' : world,
    exec sched s = Some s' -> frame_duration (ctl s') = frame_duration (ctl s).
Proof.
  induction sched as [|t sched IH]; intros s s'; simpl.
  - intros [= <-]. reflexivity.
  - destruct (step t s) as [s1|] eqn:E; [|discriminate].
    intros Hs. rewrite (IH _ _ Hs). eapply step_frame_duration, E.
Qed.

(** C8 (as amended).  [frame_duration] is fixed by the constructor and no
    step of either thread changes it.  It is the tick count of 1000 ms, that
    is 1000000 microseconds, divided by [frames_per_second] with integer
    division: 3 frames a second give 333333 microseconds, and only what is
    left below one microsecond is discarded. *)
Theorem frame_duration_in_ticks (w h fps : Z) t0 i0 file0 (c : control) :
  VideoFrameWriter_new w h fps t0 i0 file0 = Some c ->
  frame_duration c = Z.quot 1000000 fps
  /\ (fps = 3 -> frame_duration c = 333333)
  /\ (forall (cs : list call) sched (s' : @world float),
        exec sched (start c cs) = Some s' ->
        frame_duration (ctl s') = frame_duration c).
Proof.
  unfold VideoFrameWriter_new, posix_time.div.
  destruct (fps =? 0) eqn:E; [discriminate|]. intros [= <-]. cbn.
  split; [reflexivity|]. split.
  - intros ->. reflexivity.
  - intros cs sched s' Hs. apply exec_frame_duration in Hs. exact Hs.
Qed.

(** C10.  The constructor divides by [frames_per_second] without a test:
    the division, and with it the construction, has a result exactly when
    [frames_per_second] is not 0. *)
Theorem constructor_divides_unguarded (w h fps : Z) t0 i0 file0 :
  (VideoFrameWriter_new w h fps t0 i0 file0 = None <-> fps = 0)
  /\ VideoFrameWriter_new w h 0 t0 i0 file0 = None
  /\ (fps <> 0 ->
      exists c, VideoFrameWriter_new w h fps t0 i0 file0 = Some c
                /\ frame_duration c = Z.quot (posix_time.milliseconds 1000) fps).
Proof.
  unfold VideoFrameWriter_new, posix_time.div. split; [|split].
  - destruct (Z.eqb_spec fps 0) as [->|Hne]; split; intros; try reflexivity;
      try discriminate; contradiction.
  - reflexivity.
  - intros Hne. destruct (Z.eqb_spec fps 0) as [->|_]; [contradiction|].
    eexists. split; reflexivity.
Qed.

(** *** The order in which the sink is served *)

Lemma deliver_cons (count : Z) (f : TimestampedVideoFrame) rest :
  deliverable f = true ->
  exists out,
    sink_buffer f = ConvOk out
    /\ Frame.width f <> 0
    /\ deliver count (f :: rest)
       = {| sc_pixels := out; sc_width := Frame.width f;
            sc_height := Frame.height f; sc_index := count |}
         :: deliver (CInt.incr count) rest.
Proof.
  unfold deliverable. intros Hd. apply andb_true_iff in Hd as [Hw Hb].
  apply negb_true_iff, Z.eqb_neq in Hw. cbn.
  destruct (sink_buffer f) as [out| |]; try discriminate Hb.
  exists out. auto.
Qed.

Lemma producer_keeps_pending (s s' : world) :
  forallb no_reopen (prod s) = true ->
  producer_step s = Some s' ->
  pending s' = pending s
  /\ sink_calls s' = sink_calls s
  /\ thread_count (frame_writer_thread s')
     = thread_count (frame_writer_thread s)
  /\ forallb no_reopen (prod s') = true
  /\ crashed s' = false.
Proof.
  intros Hnr Hs. unfold producer_step in Hs.
  destruct (crashed s) eqn:Hc; [discriminate|].
  destruct (prod s) as [|i rest] eqn:Ep; [discriminate|].
  cbn in Hnr. apply andb_true_iff in Hnr as [Hi Hrest].
  unfold pending, crashed in *. rewrite Ep.
  destruct i; try discriminate Hi; cbn in Hs.
  - destruct (write_accepts (ctl s) f) eqn:Ha; injection Hs as <-; cbn;
      rewrite Ha; auto.
  - injection Hs as <-. cbn. rewrite <- !app_assoc. auto.
  - injection Hs as <-. cbn. auto.
  - destruct (is_open (ctl s)) eqn:Eo; injection Hs as <-; cbn; rewrite ?Eo;
      auto.
  - destruct (frame_writer_thread s) eqn:Et; try discriminate Hs;
      injection Hs as <-; cbn; rewrite ?Et; auto.
Qed.

Lemma opening_step (s s' : world) :
  opening (prod s) (ctl s) ->
  frame_writer_thread s = NotAThread ->
  producer_step s = Some s' ->
  pending s' = pending s
  /\ sink_calls s' = sink_calls s
  /\ crashed s' = false
  /\ ((opening (prod s') (ctl s') /\ frame_writer_thread s' = NotAThread)
      \/ (forallb no_reopen (prod s') = true
          /\ frame_writer_thread s' = AtLoopTest 0)).
Proof.
  intros (now & ok & rest & Hrest & Hshape) Ht Hs. unfold producer_step in Hs.
  destruct (crashed s) eqn:Hc; [discriminate|].
  unfold pending, crashed in *.
  destruct Hshape as [[Ep Eo]|[Ep|Ep]]; rewrite Ep in *; cbn in Hs.
  - rewrite Eo in Hs. injection Hs as <-. cbn. rewrite Eo, Ht.
    repeat split; auto. left. split; [|reflexivity].
    exists now, ok, rest. auto.
  - injection Hs as <-. cbn. rewrite Ht.
    repeat split; auto. left. split; [|reflexivity].
    exists now, ok, rest. auto.
  - rewrite Ht in Hs. injection Hs as <-. cbn. rewrite Ht.
    repeat split; auto.
Qed.

Ltac same_course count :=
  do 4 (split; [solve [auto]|]);
  exists count; split; [intros ? [=]; auto | auto].

Lemma consumer_keeps_course (s s' : world) (count : Z) :
  forallb deliverable (pending s) = true ->
  counts (frame_writer_thread s) count ->
  consumer_step s = Some s' ->
  crashed s' = false
  /\ prod s' = prod s
  /\ ctl s' = ctl s
  /\ forallb deliverable (pending s') = true
  /\ exists count',
      counts (frame_writer_thread s') count'
      /\ sink_calls s' ++ deliver count' (pending s')
         = sink_calls s ++ deliver count (pending s).
Proof.
  intros Hd Hcount Hs. unfold consumer_step in Hs.
  unfold pending, crashed, counts in *.
  destruct (frame_writer_thread s) as [|c|c|c|c fo| | |] eqn:Et;
    try discriminate Hs; cbn in Hcount;
    pose proof (Hcount c eq_refl) as ->.
  - injection Hs as <-. cbn.
    destruct (is_open (ctl s)); cbn; same_course count.
  - destruct (frames_available s); [|discriminate]. injection Hs as <-. cbn.
    same_course count.
  - destruct (frame_buffer s) as [|f q] eqn:Eq; injection Hs as <-; cbn;
      rewrite ?Eq; cbn; cbn in Hd; same_course count.
  - injection Hs as <-. unfold dispatch. destruct fo as [f|]; cbn.
    + cbn in Hd. apply andb_true_iff in Hd as [Hf Hrest].
      destruct (deliver_cons count f
                  (frame_buffer s ++ will_push (prod s) (ctl s)) Hf)
        as (out & Hout & Hw & Hdel).
      destruct (Z.eqb_spec (Frame.width f) 0) as [E|_]; [contradiction|].
      rewrite Hout. cbn. do 4 (split; [solve [auto]|]).
      exists (CInt.incr count). split; [intros c [=]; auto|].
      rewrite <- app_assoc. reflexivity.
    + same_course count.
Qed.

Lemma on_course_step (expected : list sink_call) (t : tid) (s s' : world) :
  on_course expected s -> step t s = Some s' -> on_course expected s'.
Proof.
  intros (Hc & Hd & count & HE & Hmode) Hs. unfold on_course.
  destruct t; cbn in Hs.
  - destruct Hmode as [[Hnr Hcount]|(Hop & Ht & ->)].
    + destruct (producer_keeps_pending s s' Hnr Hs)
        as (Hp & Hk & Htc & Hnr' & Hc').
      rewrite Hp, Hk. split; [exact Hc'|]. split; [exact Hd|].
      exists count. split; [exact HE|]. left. split; [exact Hnr'|].
      unfold counts in *. rewrite Htc. exact Hcount.
    + destruct (opening_step s s' Hop Ht Hs) as (Hp & Hk & Hc' & Hnext).
      rewrite Hp, Hk. split; [exact Hc'|]. split; [exact Hd|].
      exists 0. split; [exact HE|].
      destruct Hnext as [[Hop' Ht']|[Hnr' Ht']]; [right; auto|left].
      split; [exact Hnr'|]. unfold counts. rewrite Ht'. intros c [=]. auto.
  - destruct Hmode as [[Hnr Hcount]|(Hop & Ht & ->)].
    + destruct (consumer_keeps_course s s' count Hd Hcount Hs)
        as (Hc' & Hp & Hctl & Hd' & count' & Hcount' & HE').
      split; [exact Hc'|]. split; [exact Hd'|].
      exists count'. split; [congruence|]. left. rewrite Hp. auto.
    + unfold consumer_step in Hs. rewrite Ht in Hs. discriminate.
Qed.

Lemma on_course_run (expected : list sink_call) (sched : list tid) :
  forall s s' : world,
    on_course expected s -> exec sched s = Some s' -> on_course expected s'.
Proof.
  induction sched as [|t sched IH]; intros s s' Hinv; simpl.
  - intros [= <-]. exact Hinv.
  - destruct (step t s) as [s1|] eqn:E; [|discriminate].
    apply IH. eapply on_course_step; eassumption.
Qed.

Lemma deliver_lookup (fs : list TimestampedVideoFrame) :
  forall (count : Z) (j : nat) (f : TimestampedVideoFrame),
    forallb deliverable fs = true ->
    fs !! j = Some f ->
    - 2 ^ 31 <= count ->
    count + Z.of_nat j <= CInt.max ->
    exists out,
      sink_buffer f = ConvOk out
      /\ deliver count fs !! j
         = Some {| sc_pixels := out; sc_width := Frame.width f;
                   sc_height := Frame.height f;
                   sc_index := count + Z.of_nat j |}.
Proof.
  induction fs as [|g fs IH]; intros count j f Hd Hj Hlo Hhi; [discriminate|].
  cbn in Hd. apply andb_true_iff in Hd as [Hg Hrest].
  destruct (deliver_cons count g fs Hg) as (out & Hout & _ & Hdel).
  rewrite Hdel. destruct j as [|j]; cbn in Hj.
  - injection Hj as <-. exists out. split; [exact Hout|].
    cbn. rewrite Z.add_0_r. reflexivity.
  - destruct (IH (CInt.incr count) j f Hrest Hj) as (out' & Hout' & Hl).
    + rewrite CInt_incr_small by lia. lia.
    + rewrite CInt_incr_small by lia. lia.
    + exists out'. split; [exact Hout'|].
      change ((deliver (CInt.incr count) fs) !! j
              = Some {| sc_pixels := out'; sc_width := Frame.width f;
                        sc_height := Frame.height f;
                        sc_index := count + Z.of_nat (S j) |}).
      rewrite Hl, CInt_incr_small by lia. do 2 f_equal. lia.
Qed.

Lemma will_push_writes (fs : list TimestampedVideoFrame) :
  forall (c : control) (rest : list pinstr),
    will_push (program (map Write fs) ++ rest) c
    = map fst (accepted (frame_duration c) (last_timestamp c)
                 (frame_index c) fs)
      ++ will_push rest (finish (program (map Write fs)) c).
Proof.
  induction fs as [|f fs IH]; intros c rest; [reflexivity|].
  change (program (map Write (f :: fs)))
    with (PWriteGate f :: program (map Write fs)).
  rewrite finish_cons. cbn [app will_push control_effect accepted].
  unfold write_accepts.
  destruct (frame_duration c <=? Frame.timestamp f - last_timestamp c) eqn:E.
  - rewrite IH. reflexivity.
  - apply IH.
Qed.

Lemma writes_no_reopen (fs : list TimestampedVideoFrame) (closing : bool) :
  forallb no_reopen
    (program (map Write fs ++ (if closing then [Close] else []))) = true.
Proof.
  rewrite program_app, forallb_app. apply andb_true_iff. split.
  - induction fs as [|f fs IH]; [reflexivity | exact IH].
  - destruct closing; reflexivity.
Qed.

(** X1.  While the writer is not opened again, and as long as every frame
    on its way to the sink is one the loop can hand over, the sink is served
    in order: at every moment the calls it has received are an initial part
    of the calls due for the frames popped, queued and still to be
    accepted, each frame once, with its own buffer and with consecutive
    values of [count]; the loop does not throw; and once no frame is on its
    way the sink has received them all. *)
Theorem sink_served_in_order (s : world) (count : Z)
    (sched : list tid) (s' : world) :
  crashed s = false ->
  counts (frame_writer_thread s) count ->
  forallb no_reopen (prod s) = true ->
  forallb deliverable (pending s) = true ->
  exec sched s = Some s' ->
  crashed s' = false
  /\ (exists count',
        counts (frame_writer_thread s') count'
        /\ sink_calls s ++ deliver count (pending s)
           = sink_calls s' ++ deliver count' (pending s'))
  /\ (pending s' = [] ->
      sink_calls s' = sink_calls s ++ deliver count (pending s))
  /\ (forall (j : nat) (f : TimestampedVideoFrame),
        pending s !! j = Some f ->
        - 2 ^ 31 <= count ->
        count + Z.of_nat j <= CInt.max ->
        exists out,
          sink_buffer f = ConvOk out
          /\ deliver count (pending s) !! j
             = Some {| sc_pixels := out; sc_width := Frame.width f;
                       sc_height := Frame.height f;
                       sc_index := count + Z.of_nat j |}).
Proof.
  intros Hc Hcount Hnr Hd Hrun.
  assert (Hinv : on_course (sink_calls s ++ deliver count (pending s)) s).
  { split; [exact Hc|]. split; [exact Hd|]. exists count. auto. }
  apply (on_course_run _ sched s s') in Hinv; [|exact Hrun].
  destruct Hinv as (Hc' & Hd' & count' & HE & Hmode).
  assert (Hcount' : counts (frame_writer_thread s') count').
  { destruct Hmode as [[_ Hk]|(_ & Ht & _)]; [exact Hk|].
    unfold counts. rewrite Ht. discriminate. }
  split; [exact Hc'|]. split; [exists count'; auto|]. split.
  - intros Hp. rewrite Hp in HE. cbn in HE. rewrite app_nil_r in HE.
    exact HE.
  - intros j f Hj Hlo Hhi. eapply deliver_lookup; eassumption.
Qed.

(** X2.  A session on a closed writer whose queue holds [frame_buffer s]:
    [open], calls of [write] and possibly [close].  The frames left in the
    queue are not discarded by [open]: the new thread serves them first,
    counting from 0, and the accepted frames of the session after them.  At
    every moment the calls the sink has received since are an initial part
    of the calls due for these frames, and what is missing is exactly what
    is due for the frames still on their way. *)
Theorem session_served_in_order (s : world) (now : posix_time.ptime)
    (ok : bool) (fs : list TimestampedVideoFrame) (closing : bool)
    (sched : list tid) (s' : world) :
  is_open (ctl s) = false ->
  frame_writer_thread s = NotAThread ->
  prod s = program (Open now ok :: map Write fs
                      ++ (if closing then [Close] else [])) ->
  forallb deliverable
    (frame_buffer s
       ++ map fst (accepted (frame_duration (ctl s))
                     (now - frame_duration (ctl s)) 0 fs)) = true ->
  exec sched s = Some s' ->
  crashed s' = false
  /\ exists count',
      counts (frame_writer_thread s') count'
      /\ sink_calls s
           ++ deliver 0
                (frame_buffer s
                   ++ map fst (accepted (frame_duration (ctl s))
                                 (now - frame_duration (ctl s)) 0 fs))
         = sink_calls s' ++ deliver count' (pending s')
      /\ (prod s' = [] -> frame_writer_thread s' = NotAThread ->
          pending s' = frame_buffer s').
Proof.
  intros Ho Ht Hp Hd Hrun.
  assert (Hpend : pending s
                  = frame_buffer s
                      ++ map fst (accepted (frame_duration (ctl s))
                                    (now - frame_duration (ctl s)) 0 fs)).
  { unfold pending. rewrite Ht, Hp, program_cons, program_app.
    cbn [in_flight app].
    cbn [call_steps open close app will_push control_effect].
    rewrite Ho. rewrite will_push_writes.
    cbn [frame_duration last_timestamp frame_index open_control].
    destruct closing; cbn; rewrite app_nil_r; reflexivity. }
  assert (Hinv : on_course
                   (sink_calls s
                      ++ deliver 0
                           (frame_buffer s
                              ++ map fst (accepted (frame_duration (ctl s))
                                            (now - frame_duration (ctl s))
                                            0 fs))) s).
  { split; [unfold crashed; rewrite Ht; reflexivity|].
    rewrite Hpend. split; [exact Hd|]. exists 0. split; [reflexivity|].
    right. split; [|auto]. exists now, ok, (program (map Write fs
                                   ++ (if closing then [Close] else []))).
    split; [apply writes_no_reopen|]. left. split; [|exact Ho].
    rewrite Hp, program_cons. reflexivity. }
  apply (on_course_run _ sched s s') in Hinv; [|exact Hrun].
  destruct Hinv as (Hc' & Hd' & count' & HE & Hmode).
  split; [exact Hc'|]. exists count'. split; [|split].
  - destruct Hmode as [[_ Hk]|(_ & Ht' & _)]; [exact Hk|].
    unfold counts. rewrite Ht'. discriminate.
  - symmetry. exact HE.
  - intros Hp' Ht'. unfold pending. rewrite Hp', Ht'. cbn.
    apply app_nil_r.
Qed.

(** *** One thread, and only while the writer is open *)

Lemma consumer_step_joinable (s s' : @world float) :
  consumer_step s = Some s' ->
  joinable (frame_writer_thread s) = true
  /\ joinable (frame_writer_thread s') = true.
Proof.
  unfold consumer_step, dispatch. intros Hs.
  repeat case_match; simplify_eq; cbn; auto.
Qed.

Lemma put_keeps_open (line : string) (st : ofstream) (content : string) :
  os_open (fst (ofstream_put line st content)) = os_open st.
Proof.
  unfold ofstream_put. destruct (os_fail st); [reflexivity|].
  destruct (os_open st) eqn:E; cbn; auto.
Qed.

Lemma open_control_stream (now : posix_time.ptime) (c : control) :
  os_open (frame_info_stream (open_control now true c)) = true.
Proof.
  unfold open_control. cbn. rewrite !put_keeps_open.
  unfold ofstream_open. destruct (os_open (frame_info_stream c)); reflexivity.
Qed.

Lemma close_stream_closed (st : ofstream) : os_open (ofstream_close st) = false.
Proof. unfold ofstream_close. destruct (os_open st); reflexivity. Qed.

Ltac link_ok :=
  first [assumption | solve [unfold linked in *; cbn in *; auto]].

Ltac in_phase :=
  try match goal with
      | Hl : linked false ?t |- _ => unfold linked in Hl; subst t
      end;
  cbn;
  try match goal with
      | E : frame_writer_thread _ = NotAThread |- _ => rewrite E
      end;
  rewrite ?put_keeps_open, ?close_stream_closed;
  repeat match goal with
         | E : _ = is_open (ctl _) |- _ => rewrite <- E
         | E : _ = frame_writer_thread _ |- _ => rewrite <- E
         end;
  repeat match goal with
         | |- context [concat (map call_steps ?cs)] =>
             change (concat (map call_steps cs)) with (program cs)
         end;
  split; [assumption|];
  split; [solve [auto]|];
  first [ apply ph_idle; link_ok | apply ph_push; link_ok
        | apply ph_signal; link_ok | apply ph_close_signal; link_ok
        | apply ph_close_join; link_ok | apply ph_reopen_signal; link_ok
        | apply ph_reopen_join; link_ok | apply ph_init | apply ph_spawn ].

Lemma coherent_step (t : tid) (s s' : world) :
  coherent s -> step t s = Some s' -> coherent s'.
Proof.
  intros (Hd & Hos & Hph) Hs. unfold coherent. destruct t; cbn in Hs.
  - unfold producer_step in Hs. destruct (crashed s); [discriminate|].
    remember (prod s) as p eqn:Ep.
    remember (is_open (ctl s)) as o eqn:Eo.
    remember (frame_writer_thread s) as th eqn:Et.
    destruct Hph as [cs o t Hl | f cs o t Hl | cs o t Hl | cs t Hj
                    | cs t Hj | now ok cs t Hj | now ok cs t Hj | now ok cs | cs].
    + destruct cs as [|[now ok|f| |] cs]; cbn in Hs; [discriminate| | | | ].
      * rewrite <- Eo in Hs. destruct o; injection Hs as <-; in_phase.
      * destruct (write_accepts (ctl s) f); injection Hs as <-; in_phase.
      * rewrite <- Eo in Hs. destruct o; injection Hs as <-; in_phase.
      * rewrite <- Eo in Hs. destruct o; injection Hs as <-; in_phase.
    + cbn in Hs. injection Hs as <-. in_phase.
    + cbn in Hs. injection Hs as <-. in_phase.
    + cbn in Hs. injection Hs as <-. in_phase.
    + cbn in Hs. rewrite <- Et in Hs.
      destruct t; try discriminate Hs; try discriminate Hj;
        injection Hs as <-; in_phase.
    + cbn in Hs. injection Hs as <-. in_phase.
    + cbn in Hs. rewrite <- Et in Hs.
      destruct t; try discriminate Hs; try discriminate Hj;
        injection Hs as <-; in_phase.
    + cbn in Hs. injection Hs as <-. in_phase.
    + cbn in Hs. rewrite <- Et in Hs. injection Hs as <-. in_phase.
  - destruct (consumer_step_frame s s' Hs) as (Hc' & Hp' & Hd').
    destruct (consumer_step_joinable s s' Hs) as (Hj & Hj').
    rewrite Hc', Hp', Hd'. split; [exact Hd|]. split; [exact Hos|].
    remember (prod s) as p eqn:Ep.
    remember (is_open (ctl s)) as o eqn:Eo.
    remember (frame_writer_thread s) as th eqn:Et.
    destruct Hph as [cs o t Hl | f cs o t Hl | cs o t Hl | cs t Hk
                    | cs t Hk | now ok cs t Hk | now ok cs t Hk | now ok cs | cs];
      try discriminate Hj; try (constructor; exact Hj').
    all: constructor; unfold linked in *; destruct o;
      [exact Hj' | rewrite Hl in Hj; discriminate Hj].
Qed.

Lemma coherent_run (sched : list tid) :
  forall s s' : world,
    coherent s -> exec sched s = Some s' -> coherent s'.
Proof.
  induction sched as [|t sched IH]; intros s s' Hinv; simpl.
  - intros [= <-]. exact Hinv.
  - destruct (step t s) as [s1|] eqn:E; [|discriminate].
    apply IH. eapply coherent_step; eassumption.
Qed.

Lemma opens_succeed_program (cs : list (@call float)) :
  opens_succeed (program cs) = files_openable cs.
Proof.
  induction cs as [|c cs IH]; [reflexivity|].
  rewrite program_cons. unfold opens_succeed in *.
  rewrite forallb_app, IH. destruct c; cbn; try reflexivity.
  rewrite andb_true_r. reflexivity.
Qed.

Lemma stream_follows_step (t : tid) (s s' : world) :
  opens_succeed (prod s) = true ->
  os_open (frame_info_stream (ctl s)) = is_open (ctl s) ->
  step t s = Some s' ->
  opens_succeed (prod s') = true
  /\ os_open (frame_info_stream (ctl s')) = is_open (ctl s').
Proof.
  intros Hok Hos Hs. destruct t; cbn in Hs.
  - unfold producer_step in Hs. destruct (crashed s); [discriminate|].
    destruct (prod s) as [|i rest] eqn:Ep; [discriminate|].
    cbn in Hok. apply andb_true_iff in Hok as [Hi Hrest].
    destruct i; cbn in Hs.
    + destruct (write_accepts (ctl s) f); injection Hs as <-; cbn;
        rewrite ?put_keeps_open; (split; [exact Hrest | exact Hos]).
    + injection Hs as <-. cbn. split; [exact Hrest | exact Hos].
    + injection Hs as <-. cbn. split; [exact Hrest | exact Hos].
    + destruct (is_open (ctl s)) eqn:Eo; injection Hs as <-; cbn;
        rewrite ?close_stream_closed;
        (split; [exact Hrest | first [reflexivity | congruence]]).
    + destruct (frame_writer_thread s); try discriminate Hs;
        injection Hs as <-; cbn; (split; [exact Hrest | exact Hos]).
    + injection Hs as <-. cbn in Hi. subst ok. cbn -[open_control].
      split; [exact Hrest|]. apply open_control_stream.
    + injection Hs as <-.
      destruct (joinable (frame_writer_thread s)); cbn;
        (split; [exact Hrest | exact Hos]).
  - destruct (consumer_step_frame s s' Hs) as (Hc' & Hp' & _).
    rewrite Hc', Hp'. auto.
Qed.

Lemma stream_follows_run (sched : list tid) :
  forall s s' : world,
    opens_succeed (prod s) = true ->
    os_open (frame_info_stream (ctl s)) = is_open (ctl s) ->
    exec sched s = Some s' ->
    os_open (frame_info_stream (ctl s')) = is_open (ctl s').
Proof.
  induction sched as [|t sched IH]; intros s s' Hok Hos; simpl.
  - intros [= <-]. exact Hos.
  - destruct (step t s) as [s1|] eqn:E; [|discriminate].
    destruct (stream_follows_step t s s1 Hok Hos E) as [Hok1 Hos1].
    apply IH; assumption.
Qed.

(** X3.  For a writer built by the constructor, whatever calls of [open],
    [write], [close] and the destructor follow and however the two threads
    are scheduled: no thread is ever abandoned without a join; the side
    stream is open only while [isOpen] holds, and exactly when [isOpen]
    holds if every [open] could create its side file; between calls, an open
    writer has its thread and a closed writer has none; a thread exists only
    while the writer is open or [close] is on its way to the join; and an
    open writer lacks its thread only inside [open], before the thread is
    started. *)
Theorem one_thread_while_open (w h fps : Z) t0 i0 file0 (c : control)
    (cs : list call) (sched : list tid) (s' : world) :
  VideoFrameWriter_new w h fps t0 i0 file0 = Some c ->
  exec sched (start c cs) = Some s' ->
  detached s' = 0%nat
  /\ (os_open (frame_info_stream (ctl s')) = true -> isOpen s' = true)
  /\ (files_openable cs = true ->
      os_open (frame_info_stream (ctl s')) = isOpen s')
  /\ (prod s' = [] ->
      if isOpen s' then joinable (frame_writer_thread s') = true
      else frame_writer_thread s' = NotAThread)
  /\ (joinable (frame_writer_thread s') = true ->
      isOpen s' = true
      \/ exists rest, prod s' = PSignal :: PJoin :: rest
                      \/ prod s' = PJoin :: rest)
  /\ (isOpen s' = true ->
      joinable (frame_writer_thread s') = true
      \/ exists rest, prod s' = PSpawn :: rest).
Proof.
  intros Hnew Hrun.
  assert (Hstart : coherent (start c cs)).
  { unfold VideoFrameWriter_new in Hnew.
    destruct (posix_time.div _ fps); [|discriminate]. injection Hnew as <-.
    split; [reflexivity|]. split; [discriminate|]. cbn.
    apply ph_idle. reflexivity. }
  assert (Hfollows : files_openable cs = true ->
                     os_open (frame_info_stream (ctl s')) = isOpen s').
  { intros Hok. apply (stream_follows_run sched (start c cs)).
    - cbn [start prod]. rewrite opens_succeed_program. exact Hok.
    - unfold VideoFrameWriter_new in Hnew.
      destruct (posix_time.div _ fps); [|discriminate]. injection Hnew as <-.
      reflexivity.
    - exact Hrun. }
  apply (coherent_run sched _ s') in Hstart; [|exact Hrun].
  destruct Hstart as (Hd & Hos & Hph). unfold isOpen in *.
  split; [exact Hd|]. split; [exact Hos|]. split; [exact Hfollows|].
  clear Hfollows.
  remember (prod s') as p eqn:Ep.
  remember (is_open (ctl s')) as o eqn:Eo.
  remember (frame_writer_thread s') as th eqn:Et.
  destruct Hph as [cs' o t Hl | f cs' o t Hl | cs' o t Hl | cs' t Hj
                  | cs' t Hj | now ok cs' t Hj | now ok cs' t Hj | now ok cs' | cs'];
    unfold linked in *.
  - split; [intros _; exact Hl|]. split.
    + intros Hj. destruct o; [auto|]. rewrite Hl in Hj. discriminate.
    + intros ->. auto.
  - split; [discriminate|]. split.
    + intros Hj. destruct o; [auto|]. rewrite Hl in Hj. discriminate.
    + intros ->. auto.
  - split; [discriminate|]. split.
    + intros Hj. destruct o; [auto|]. rewrite Hl in Hj. discriminate.
    + intros ->. auto.
  - split; [discriminate|]. split; [|discriminate]. eauto.
  - split; [discriminate|]. split; [|discriminate]. eauto.
  - split; [discriminate|]. split; [|discriminate]. eauto.
  - split; [discriminate|]. split; [|discriminate]. eauto.
  - split; [discriminate|]. split; discriminate.
  - split; [discriminate|]. split; [discriminate|]. eauto.
Qed.

(** *** [close] gets to its join *)

Lemma drain_to_return (q : list TimestampedVideoFrame) :
  forall (s : world) (count : Z),
    frame_writer_thread s = AtPop count ->
    frame_buffer s = q ->
    is_open (ctl s) = false ->
    exists (n : nat) (s' : world),
      (n <= 2 * length q + 3)%nat
      /\ exec (repeat Consumer n) s = Some s'
      /\ (frame_writer_thread s' = Returned \/ crashed s' = true)
      /\ ctl s' = ctl s
      /\ prod s' = prod s
      /\ (forallb deliverable q = true ->
          frame_writer_thread s' = Returned
          /\ frame_buffer s' = []
          /\ sink_calls s' = sink_calls s ++ deliver count q).
Proof.
  induction q as [|f q IH]; intros s count Ht Hq Ho.
  - exists 3%nat. eexists. split; [cbn; lia|]. split.
    { cbn. unfold consumer_step. rewrite Ht, Hq. cbn. rewrite Ho.
      reflexivity. }
    cbn. rewrite app_nil_r. auto 10.
  - destruct (Z.eqb_spec (Frame.width f) 0) as [Hw|Hw].
    { exists 3%nat. eexists. split; [cbn; lia|]. split.
      { cbn. unfold consumer_step. rewrite Ht, Hq. cbn.
        unfold dispatch. cbn. rewrite Hw. cbn. rewrite Ho. reflexivity. }
      cbn. split; [auto|]. split; [auto|]. split; [auto|].
      unfold deliverable. rewrite Hw. discriminate. }
    destruct (sink_buffer f) as [out|e|] eqn:Hb.
    + set (s2 := set_thread (AtPop (CInt.incr count))
                   (set_sink_calls
                      (sink_calls s
                         ++ [{| sc_pixels := out; sc_width := Frame.width f;
                                sc_height := Frame.height f;
                                sc_index := count |}])
                      (set_frame_buffer q s))).
      destruct (IH s2 (CInt.incr count)) as (n & s' & Hn & Hrun & Hend & Hc & Hp & Hall);
        [reflexivity | reflexivity | exact Ho |].
      exists (2 + n)%nat, s'. split; [cbn [length]; lia|]. split.
      { cbn [repeat Nat.add exec step]. unfold consumer_step at 1.
        rewrite Ht, Hq. cbn. unfold dispatch. cbn.
        destruct (Z.eqb_spec (Frame.width f) 0); [contradiction|].
        rewrite Hb. exact Hrun. }
      split; [exact Hend|]. split; [exact Hc|]. split; [exact Hp|].
      intros Hd. cbn in Hd. apply andb_true_iff in Hd as [_ Hd].
      destruct (Hall Hd) as (H1 & H2 & H3).
      split; [exact H1|]. split; [exact H2|].
      rewrite H3. cbn. rewrite Hb, <- app_assoc. reflexivity.
    + exists 2%nat. eexists. split; [cbn; lia|]. split.
      { cbn. unfold consumer_step. rewrite Ht, Hq. cbn. unfold dispatch. cbn.
        destruct (Z.eqb_spec (Frame.width f) 0); [contradiction|].
        rewrite Hb. reflexivity. }
      cbn. split; [auto|]. split; [auto|]. split; [auto|].
      unfold deliverable. rewrite Hb, andb_false_r. discriminate.
    + exists 2%nat. eexists. split; [cbn; lia|]. split.
      { cbn. unfold consumer_step. rewrite Ht, Hq. cbn. unfold dispatch. cbn.
        destruct (Z.eqb_spec (Frame.width f) 0); [contradiction|].
        rewrite Hb. reflexivity. }
      cbn. split; [auto|]. split; [auto|]. split; [auto|].
      unfold deliverable. rewrite Hb, andb_false_r. discriminate.
Qed.

(** From any position of the loop, once [is_open] is clear: the steps the
    thread takes on its own, where they end, and what they serve. *)
Lemma thread_runs_out (s : world) (count : Z) :
  is_open (ctl s) = false ->
  thread_count (frame_writer_thread s) = Some count ->
  (frame_writer_thread s = AtWait count -> frames_available s = true) ->
  exists (n : nat) (s' : world),
    (n <= 2 * length (frame_buffer s) + 5)%nat
    /\ exec (repeat Consumer n) s = Some s'
    /\ (frame_writer_thread s' = Returned \/ crashed s' = true)
    /\ ctl s' = ctl s
    /\ prod s' = prod s
    /\ (frame_writer_thread s = AtLoopTest count
        \/ frame_writer_thread s = AtDispatch count None ->
        frame_writer_thread s' = Returned
        /\ frame_buffer s' = frame_buffer s
        /\ sink_calls s' = sink_calls s)
    /\ (frame_writer_thread s <> AtLoopTest count ->
        frame_writer_thread s <> AtDispatch count None ->
        forallb deliverable
          (in_flight (frame_writer_thread s) ++ frame_buffer s) = true ->
        frame_writer_thread s' = Returned
        /\ frame_buffer s' = []
        /\ sink_calls s'
           = sink_calls s
               ++ deliver count
                    (in_flight (frame_writer_thread s) ++ frame_buffer s)).
Proof.
  intros Ho Hcount Hwait.
  destruct (frame_writer_thread s) as [|c|c|c|c fo| | |] eqn:Et;
    try discriminate Hcount; injection Hcount as ->.
  - exists 1%nat. eexists. split; [lia|]. split.
    { cbn. unfold consumer_step. rewrite Et, Ho. reflexivity. }
    cbn. split; [auto|]. split; [auto|]. split; [auto|].
    split; [auto|]. intros Hne. contradiction.
  - destruct (drain_to_return (frame_buffer s) (set_thread (AtPop count) s)
                count eq_refl eq_refl Ho)
      as (n & s' & Hn & Hrun & Hend & Hc & Hp & Hall).
    exists (1 + n)%nat, s'. split; [cbn in Hn; lia|]. split.
    { cbn [repeat Nat.add exec step]. unfold consumer_step at 1.
      rewrite Et, (Hwait eq_refl). exact Hrun. }
    split; [exact Hend|]. split; [exact Hc|]. split; [exact Hp|].
    split; [intros [E|E]; discriminate E|]. intros _ _ Hd. cbn in Hd.
    exact (Hall Hd).
  - destruct (drain_to_return (frame_buffer s) s count Et eq_refl Ho)
      as (n & s' & Hn & Hrun & Hend & Hc & Hp & Hall).
    exists n, s'. split; [lia|]. split; [exact Hrun|].
    split; [exact Hend|]. split; [exact Hc|]. split; [exact Hp|].
    split; [intros [E|E]; discriminate E|]. intros _ _ Hd. cbn in Hd.
    exact (Hall Hd).
  - destruct fo as [f|].
    + destruct (Z.eqb_spec (Frame.width f) 0) as [Hw|Hw].
      { exists 2%nat. eexists. split; [lia|]. split.
        { cbn. unfold consumer_step. rewrite Et. cbn. unfold dispatch. cbn.
          rewrite Hw. cbn. rewrite Ho. reflexivity. }
        cbn. split; [auto|]. split; [auto|]. split; [auto|].
        split; [intros [E|E]; discriminate E|]. intros _ _ Hd.
        unfold deliverable in Hd. rewrite Hw in Hd. discriminate Hd. }
      destruct (sink_buffer f) as [out|e|] eqn:Hb.
      * set (s2 := set_thread (AtPop (CInt.incr count))
                     (set_sink_calls
                        (sink_calls s
                           ++ [{| sc_pixels := out;
                                  sc_width := Frame.width f;
                                  sc_height := Frame.height f;
                                  sc_index := count |}]) s)).
        destruct (drain_to_return (frame_buffer s) s2 (CInt.incr count)
                    eq_refl eq_refl Ho)
          as (n & s' & Hn & Hrun & Hend & Hc & Hp & Hall).
        exists (1 + n)%nat, s'. split; [lia|]. split.
        { cbn [repeat Nat.add exec step]. unfold consumer_step at 1.
          rewrite Et. unfold dispatch. cbn.
          destruct (Z.eqb_spec (Frame.width f) 0); [contradiction|].
          rewrite Hb. exact Hrun. }
        split; [exact Hend|]. split; [exact Hc|]. split; [exact Hp|].
        split; [intros [E|E]; discriminate E|]. intros _ _ Hd. cbn in Hd.
        apply andb_true_iff in Hd as [_ Hd].
        destruct (Hall Hd) as (H1 & H2 & H3).
        split; [exact H1|]. split; [exact H2|].
        rewrite H3. cbn. rewrite Hb, <- app_assoc. reflexivity.
      * exists 1%nat. eexists. split; [lia|]. split.
        { cbn. unfold consumer_step. rewrite Et. unfold dispatch. cbn.
          destruct (Z.eqb_spec (Frame.width f) 0); [contradiction|].
          rewrite Hb. reflexivity. }
        cbn. split; [auto|]. split; [auto|]. split; [auto|].
        split; [intros [E|E]; discriminate E|]. intros _ _ Hd.
        unfold deliverable in Hd. rewrite Hb, andb_false_r in Hd.
        discriminate Hd.
      * exists 1%nat. eexists. split; [lia|]. split.
        { cbn. unfold consumer_step. rewrite Et. unfold dispatch. cbn.
          destruct (Z.eqb_spec (Frame.width f) 0); [contradiction|].
          rewrite Hb. reflexivity. }
        cbn. split; [auto|]. split; [auto|]. split; [auto|].
        split; [intros [E|E]; discriminate E|]. intros _ _ Hd.
        unfold deliverable in Hd. rewrite Hb, andb_false_r in Hd.
        discriminate Hd.
    + exists 2%nat. eexists. split; [lia|]. split.
      { cbn. unfold consumer_step. rewrite Et. cbn. rewrite Ho. reflexivity. }
      cbn. split; [auto|]. split; [auto|]. split; [auto|].
      split; [auto|]. intros _ Hne. contradiction.
Qed.

(** X4.  Once [is_open] is clear, the background thread gets to its end on
    its own steps, provided that a thread standing at the wait has been
    signalled: within 2 x (queue length) + 5 steps it has returned, unless a
    frame makes it throw.  If it stands at the loop test, or has just found
    the queue empty, it returns without touching the queue.  In every other
    position, and when the frames popped and queued are ones the loop can
    hand over, it first serves them all, in order and each once, and leaves
    the queue empty. *)
Theorem join_is_reached (s : world) (count : Z) :
  is_open (ctl s) = false ->
  thread_count (frame_writer_thread s) = Some count ->
  (frame_writer_thread s = AtWait count -> frames_available s = true) ->
  exists (n : nat) (s' : world),
    (n <= 2 * length (frame_buffer s) + 5)%nat
    /\ exec (repeat Consumer n) s = Some s'
    /\ (frame_writer_thread s' = Returned \/ crashed s' = true)
    /\ ctl s' = ctl s
    /\ prod s' = prod s
    /\ (frame_writer_thread s = AtLoopTest count
        \/ frame_writer_thread s = AtDispatch count None ->
        frame_writer_thread s' = Returned
        /\ frame_buffer s' = frame_buffer s
        /\ sink_calls s' = sink_calls s)
    /\ (frame_writer_thread s <> AtLoopTest count ->
        frame_writer_thread s <> AtDispatch count None ->
        forallb deliverable
          (in_flight (frame_writer_thread s) ++ frame_buffer s) = true ->
        frame_writer_thread s' = Returned
        /\ frame_buffer s' = []
        /\ sink_calls s'
           = sink_calls s
               ++ deliver count
                    (in_flight (frame_writer_thread s) ++ frame_buffer s)).
Proof.
  intros Ho Hcount Hwait.
  destruct (thread_runs_out s count Ho Hcount Hwait)
    as (n & s' & Hn & Hrun & Hend & Hrest).
  exists n, s'. split; [exact Hn|]. split; [exact Hrun|].
  split; [exact Hend|]. exact Hrest.
Qed.

Lemma close_weight_mono (k k' : nat) (p : list (@pinstr float)) :
  (k' <= k)%nat ->
  (list_sum (map (close_weight k') p) <= list_sum (map (close_weight k) p))%nat.
Proof.
  intros Hk. induction p as [|i p IH]; [reflexivity|].
  change (close_weight k' i + list_sum (map (close_weight k') p)
          <= close_weight k i + list_sum (map (close_weight k) p))%nat.
  destruct i; cbn [close_weight]; lia.
Qed.

Lemma consumer_step_fewer (s s' : @world float) :
  consumer_step s = Some s' ->
  (loop_steps s' < loop_steps s)%nat
  /\ (length (frame_buffer s') <= length (frame_buffer s))%nat
  /\ (forall c, frame_writer_thread s' = AtWait c -> is_open (ctl s) = true).
Proof.
  unfold consumer_step, loop_steps. intros Hs.
  destruct (frame_writer_thread s) as [|c|c|c|c fo| | |] eqn:Et;
    try discriminate Hs.
  - injection Hs as <-. cbn. destruct (is_open (ctl s)); cbn.
    + split; [lia|]. auto.
    + split; [lia|]. split; [lia|]. discriminate.
  - destruct (frames_available s) eqn:Ea; [|discriminate].
    injection Hs as <-. cbn. split; [lia|]. split; [lia|]. discriminate.
  - destruct (frame_buffer s) as [|f q] eqn:Eq; injection Hs as <-; cbn;
      rewrite ?Eq; cbn; (split; [lia|]; split; [lia|]; discriminate).
  - injection Hs as <-. unfold dispatch.
    destruct (popped_width fo =? 0) eqn:Ew.
    + cbn. destruct fo; destruct (is_open (ctl s)); cbn;
        (split; [lia|]; split; [lia|]; discriminate).
    + destruct fo as [f|]; [|discriminate Ew].
      destruct (sink_buffer f); cbn;
        (split; [lia|]; split; [lia|]; discriminate).
Qed.

Lemma closing_step (t : tid) (s s' : world) :
  closing s -> step t s = Some s' ->
  closing s' /\ (steps_left s' < steps_left s)%nat.
Proof.
  intros Hcl Hs. destruct t; cbn in Hs.
  - unfold producer_step in Hs. destruct (crashed s); [discriminate|].
    destruct Hcl as [[Hp Ho]|(Ho & Hos & [Hp|[[Hp Hw]|[Hp Ht]]])];
      rewrite Hp in Hs; cbn in Hs.
    + rewrite Ho in Hs. injection Hs as <-. split.
      * right. cbn. rewrite close_stream_closed. auto.
      * unfold steps_left, loop_steps. rewrite Hp, Ho. cbn.
        destruct (frame_writer_thread s) as [|c|c|c|c [f|]| | |];
          destruct (frames_available s); lia.
    + injection Hs as <-. split.
      * right. cbn. split; [exact Ho|]. split; [exact Hos|]. right. left.
        auto.
      * unfold steps_left, loop_steps. rewrite Hp, Ho. cbn. rewrite ?Ho.
        destruct (frame_writer_thread s) as [|c|c|c|c [f|]| | |];
          destruct (frames_available s); lia.
    + destruct (frame_writer_thread s) eqn:Et; try discriminate Hs;
        injection Hs as <-.
      * split; [right; cbn; auto 10|].
        unfold steps_left, loop_steps. rewrite Hp, Et. cbn. rewrite ?Et. lia.
      * split; [right; cbn; auto 10|].
        unfold steps_left, loop_steps. rewrite Hp, Et. cbn. rewrite ?Et. lia.
    + discriminate.
  - destruct (consumer_step_frame s s' Hs) as (Hc' & Hp' & _).
    destruct (consumer_step_fewer s s' Hs) as (Hless & Hq & Hwait).
    split.
    + unfold closing. rewrite Hc', Hp'.
      destruct Hcl as [[Hp Ho]|(Ho & Hos & [Hp|[[Hp Hw]|[Hp Ht]]])].
      * left. auto.
      * right. auto.
      * right. split; [exact Ho|]. split; [exact Hos|]. right. left.
        split; [exact Hp|]. intros c Hc. rewrite (Hwait c Hc) in Ho.
        discriminate Ho.
      * unfold consumer_step in Hs. rewrite Ht in Hs. discriminate.
    + unfold steps_left. rewrite Hp'.
      pose proof (close_weight_mono _ _ (prod s) Hq). lia.
Qed.

Lemma closing_run (sched : list tid) :
  forall s s' : world,
    closing s -> exec sched s = Some s' ->
    closing s' /\ (length sched + steps_left s' <= steps_left s)%nat.
Proof.
  induction sched as [|t sched IH]; intros s s' Hcl; simpl.
  - intros [= <-]. split; [exact Hcl | lia].
  - destruct (step t s) as [s1|] eqn:E; [|discriminate]. intros Hs.
    destruct (closing_step t s s1 Hcl E) as [Hcl1 Hless].
    destruct (IH s1 s' Hcl1 Hs) as [Hcl' Hle].
    split; [exact Hcl' | lia].
Qed.

(** In a call of [close] some thread can take a step, unless the call has
    returned or the loop has thrown. *)
Lemma closing_progress (s : world) :
  closing s ->
  (forall t, step t s = None) ->
  crashed s = true
  \/ (prod s = [] /\ frame_writer_thread s = NotAThread
      /\ is_open (ctl s) = false
      /\ os_open (frame_info_stream (ctl s)) = false).
Proof.
  intros Hcl Hstuck.
  destruct (crashed s) eqn:Hc; [left; reflexivity|]. right.
  pose proof (Hstuck Producer) as HP. pose proof (Hstuck Consumer) as HC.
  cbn in HP, HC. unfold producer_step in HP. rewrite Hc in HP.
  destruct Hcl as [[Hp Ho]|(Ho & Hos & [Hp|[[Hp Hw]|[Hp Ht]]])];
    rewrite Hp in HP; cbn in HP.
  - rewrite Ho in HP. discriminate HP.
  - discriminate HP.
  - unfold consumer_step in HC. unfold crashed in Hc.
    destruct (frame_writer_thread s) as [|c|c|c|c fo| | |] eqn:Et;
      try discriminate HP; try discriminate HC; try discriminate Hc.
    + rewrite (Hw c eq_refl) in HC. discriminate HC.
    + destruct (frame_buffer s); discriminate HC.
  - auto.
Qed.

Lemma close_has_short_run (s : world) (count : Z) (rest : list pinstr) :
  crashed s = false ->
  is_open (ctl s) = true ->
  thread_count (frame_writer_thread s) = Some count ->
  prod s = close ++ rest ->
  exists (sched : list tid) (s' : world),
    (length sched <= 2 * length (frame_buffer s) + 8)%nat
    /\ exec sched s = Some s'
    /\ (crashed s' = true
        \/ (prod s' = rest
            /\ frame_writer_thread s' = NotAThread
            /\ isOpen s' = false
            /\ os_open (frame_info_stream (ctl s')) = false)).
Proof.
  intros Hc Ho Hcount Hp.
  set (s2 := set_frames_available true
               (set_prod (PJoin :: rest)
                  (set_ctl (close_control (ctl s)) s))).
  assert (H12 : exec [Producer; Producer] s = Some s2).
  { cbn. unfold producer_step. rewrite Hc, Hp. cbn. rewrite Ho. cbn.
    unfold crashed in *. cbn. rewrite Hc. reflexivity. }
  destruct (thread_runs_out s2 count) as (n & s3 & Hn & Hrun & Hend & Hctl & Hprod & _).
  { reflexivity. }
  { exact Hcount. }
  { reflexivity. }
  destruct (crashed s3) eqn:Hc3.
  - exists ([Producer; Producer] ++ repeat Consumer n), s3.
    split; [rewrite length_app, repeat_length; cbn in *; lia|].
    split; [rewrite exec_app, H12; exact Hrun|]. auto.
  - destruct Hend as [Ht3|Hcr]; [|congruence].
    exists ([Producer; Producer] ++ repeat Consumer n ++ [Producer]).
    eexists. split.
    { rewrite !length_app, repeat_length. cbn in *. lia. }
    split.
    { rewrite exec_app, H12, exec_app, Hrun. cbn. unfold producer_step.
      rewrite Hc3, Hprod. cbn. rewrite Ht3. reflexivity. }
    right. cbn. rewrite Hctl. cbn. unfold isOpen. cbn. rewrite Hctl. cbn.
    rewrite close_stream_closed. auto.
Qed.

(** X5.  [close] on an open writer with a running thread cannot hang,
    however the two threads are scheduled.  Every run of the two threads
    from the moment of the call has at most 4 x (queue length) + 12 steps;
    whenever neither thread can take a step, [close] has returned, with the
    stream closed, [isOpen] false and the thread joined, or a frame has made
    the thread throw; and [close] returns in no other way.  The shortest
    runs that complete the call have at most 2 x (queue length) + 8
    steps. *)
Theorem close_completes (s : world) (count : Z) :
  is_open (ctl s) = true ->
  thread_count (frame_writer_thread s) = Some count ->
  prod s = close ->
  (forall (sched : list tid) (s' : world),
      exec sched s = Some s' ->
      (length sched <= 4 * length (frame_buffer s) + 12)%nat
      /\ ((forall t, step t s' = None) ->
          crashed s' = true
          \/ (prod s' = []
              /\ frame_writer_thread s' = NotAThread
              /\ isOpen s' = false
              /\ os_open (frame_info_stream (ctl s')) = false))
      /\ (prod s' = [] ->
          frame_writer_thread s' = NotAThread
          /\ isOpen s' = false
          /\ os_open (frame_info_stream (ctl s')) = false)
      /\ (crashed s' = false -> prod s' <> [] ->
          exists t s'', step t s' = Some s''))
  /\ exists (sched : list tid) (s' : world),
      (length sched <= 2 * length (frame_buffer s) + 8)%nat
      /\ exec sched s = Some s'
      /\ (crashed s' = true
          \/ (prod s' = []
              /\ frame_writer_thread s' = NotAThread
              /\ isOpen s' = false
              /\ os_open (frame_info_stream (ctl s')) = false)).
Proof.
  intros Ho Hcount Hp. split.
  - intros sched s' Hrun.
    assert (Hcl : closing s) by (left; auto).
    destruct (closing_run sched s s' Hcl Hrun) as [Hcl' Hlen].
    assert (Hstart : (steps_left s <= 4 * length (frame_buffer s) + 12)%nat).
    { unfold steps_left, loop_steps. rewrite Hp, Ho. cbn.
      destruct (frame_writer_thread s) as [|c|c|c|c [f|]| | |];
        destruct (frames_available s); lia. }
    split; [lia|]. split; [apply closing_progress, Hcl'|]. split.
    + intros Hend. unfold isOpen.
      destruct Hcl' as [[Hp' _]|(Ho' & Hos' & [Hp'|[[Hp' _]|[_ Ht']]])];
        try (rewrite Hp' in Hend; discriminate Hend). auto.
    + intros Hc' Hne.
      destruct (step Producer s') as [s''|] eqn:EP; [eauto|].
      destruct (step Consumer s') as [s''|] eqn:EC; [eauto|].
      destruct (closing_progress s' Hcl') as [Hcr|(Hp' & _)].
      * intros [|]; assumption.
      * congruence.
      * contradiction.
  - apply (close_has_short_run s count []).
    + unfold crashed. destruct (frame_writer_thread s); try discriminate Hcount;
        reflexivity.
    + exact Ho.
    + exact Hcount.
    + rewrite Hp. reflexivity.
Qed.

(** *** The rate of the accepted frames *)

Lemma accepted_span (dur : posix_time.time_duration)
    (fs : list TimestampedVideoFrame) last idx :
  forall (d i : nat) a b,
    accepted dur last idx fs !! i = Some a ->
    accepted dur last idx fs !! (i + d)%nat = Some b ->
    Z.of_nat d * dur <= Frame.timestamp (fst b) - Frame.timestamp (fst a).
Proof.
  induction d as [|d IH]; intros i a b Ha Hb.
  - rewrite Nat.add_0_r, Ha in Hb. injection Hb as <-. lia.
  - destruct (lookup_lt_is_Some_2 (accepted dur last idx fs) (i + d)%nat)
      as [m Hm].
    { apply lookup_lt_Some in Hb. lia. }
    pose proof (IH i a m Ha Hm) as H1.
    replace (i + S d)%nat with (S (i + d)) in Hb by lia.
    pose proof (accepted_spaced dur fs last idx (i + d)%nat m b Hm Hb) as H2.
    lia.
Qed.

Lemma accepted_sublist (dur : posix_time.time_duration)
    (fs : list TimestampedVideoFrame) :
  forall last idx, sublist (map fst (accepted dur last idx fs)) fs.
Proof.
  induction fs as [|f fs IH]; intros last idx; cbn; [constructor|].
  destruct (dur <=? Frame.timestamp f - last); cbn.
  - apply sublist_skip, IH.
  - apply sublist_cons, IH.
Qed.

(** X6.  Successive calls of [write] only drop frames: the frames they
    append to the queue are some of the submitted frames, in the order of
    submission.  Any two of them that are [d] places apart are at least
    [d] frame durations apart in time, so a span of time [T] holds at most
    [T / frame_duration + 1] accepted frames; with a positive frame
    duration their time stamps increase strictly. *)
Theorem throttle_rate (s : world) (fs : list TimestampedVideoFrame)
    (rest : list pinstr) :
  crashed s = false ->
  prod s = program (map Write fs) ++ rest ->
  exists (n : nat) (s' : world) (pushed : list TimestampedVideoFrame),
    exec (repeat Producer n) s = Some s'
    /\ frame_buffer s' = frame_buffer s ++ pushed
    /\ prod s' = rest
    /\ sublist pushed fs
    /\ (forall (i d : nat) a b,
          pushed !! i = Some a -> pushed !! (i + d)%nat = Some b ->
          Z.of_nat d * frame_duration (ctl s)
            <= Frame.timestamp b - Frame.timestamp a)
    /\ (0 < frame_duration (ctl s) ->
        forall (i j : nat) a b,
          pushed !! i = Some a -> pushed !! j = Some b -> (i < j)%nat ->
          Frame.timestamp a < Frame.timestamp b).
Proof.
  intros Hc Hp.
  destruct (writes_run fs s rest Hc Hp) as (n & s' & Hrun & Hq & Hr & _).
  set (acc := accepted (frame_duration (ctl s)) (last_timestamp (ctl s))
                (frame_index (ctl s)) fs) in *.
  assert (Hspan : forall (i d : nat) a b,
             map fst acc !! i = Some a -> map fst acc !! (i + d)%nat = Some b ->
             Z.of_nat d * frame_duration (ctl s)
               <= Frame.timestamp b - Frame.timestamp a).
  { intros i d a b Ha Hb. rewrite list_lookup_fmap in Ha, Hb.
    destruct (acc !! i) as [a'|] eqn:Ea; [|discriminate].
    destruct (acc !! (i + d)%nat) as [b'|] eqn:Eb; [|discriminate].
    cbn in Ha, Hb. injection Ha as <-. injection Hb as <-.
    eapply accepted_span; eassumption. }
  exists n, s', (map fst acc). split; [exact Hrun|]. split; [exact Hq|].
  split; [exact Hr|]. split; [apply accepted_sublist|]. split; [exact Hspan|].
  intros Hpos i j a b Ha Hb Hij.
  replace j with (i + (j - i))%nat in Hb by lia.
  pose proof (Hspan i (j - i)%nat a b Ha Hb) as Hs. nia.
Qed.

(** *** The conversion and the size of the pixel buffer *)

Lemma ddd_loop_short (pixels : list byte) :
  forall (todo k : nat) (out : list cell),
    4 * (Z.of_nat k + Z.of_nat todo) <= CInt.max + 1 ->
    (4 * k <= length pixels < 4 * (k + todo))%nat ->
    (3 * (k + todo) <= length out)%nat ->
    ddd_loop pixels todo (Z.of_nat k) out = None.
Proof.
  induction todo as [|todo IH]; intros k out Hmax Hpix Hout; [lia|].
  destruct (decide (4 * k + 3 < length pixels)%nat) as [Hin|Hin].
  - destruct (lookup_lt_is_Some_2 pixels (4 * k + 3)%nat Hin) as [v Hv].
    simpl. rewrite (ddd_body_ok pixels out k v)
      by (unfold CInt.max in *; lia || assumption).
    rewrite CInt_incr_small by (unfold CInt.max in *; lia).
    replace (Z.of_nat k + 1) with (Z.of_nat (S k)) by lia.
    apply IH; [lia | lia |]. rewrite !length_insert. lia.
  - simpl. unfold ddd_body, CInt.add, CInt.mul, load.
    unfold CInt.max in Hmax.
    rewrite (CInt_wrap_small (Z.of_nat k * 4)) by (unfold CInt.max; lia).
    rewrite (CInt_wrap_small (Z.of_nat k * 4 + 3)) by (unfold CInt.max; lia).
    replace (0 <=? Z.of_nat k * 4 + 3) with true
      by (symmetry; apply Z.leb_le; lia).
    replace (Z.to_nat (Z.of_nat k * 4 + 3)) with (4 * k + 3)%nat by lia.
    rewrite lookup_ge_None_2 by lia. reflexivity.
Qed.

(** X7.  What lines 131-143 do with a four-channel frame, for the sizes at
    which the [int] arithmetic does not overflow.  A negative product of
    width and height makes the allocation throw.  Otherwise the conversion
    reads bytes 3, 7, 11, ... of the pixel buffer without a test of its
    length: with at least width x height x 4 bytes it yields width x height
    x 3 bytes and ignores what lies beyond; with fewer it reads past the
    end of the buffer. *)
Theorem four_channel_outcomes (f : TimestampedVideoFrame) :
  Frame.channels f = 4 ->
  - 2 ^ 31 <= Frame.width f * Frame.height f * 3 ->
  Frame.width f * Frame.height f * 4 <= CInt.max + 1 ->
  let n := Frame.width f * Frame.height f in
  let len := Z.of_nat (length (Frame.pixels f)) in
  (n < 0 -> sink_buffer f = ConvThrow bad_array_new_length)
  /\ (0 <= n -> n * 4 <= len ->
      exists out,
        sink_buffer f = ConvOk out
        /\ Z.of_nat (length out) = n * 3
        /\ forall i : nat, (i < Z.to_nat n)%nat ->
             exists v, Frame.pixels f !! (4 * i + 3)%nat = Some v
                       /\ out !! (3 * i)%nat = Some (Some v)
                       /\ out !! (3 * i + 1)%nat = Some (Some v)
                       /\ out !! (3 * i + 2)%nat = Some (Some v))
  /\ (0 <= n -> len < n * 4 -> sink_buffer f = ConvUndefined).
Proof.
  intros Hch Hlo Hhi n len. unfold sink_buffer, extract_DDD. rewrite Hch.
  cbn [Z.eqb Pos.eqb]. fold n. unfold CInt.mul. fold n.
  unfold CInt.max in *.
  assert (Hn : - 2 ^ 31 <= n <= 2 ^ 31 - 1) by (subst n; lia).
  rewrite (CInt_wrap_small n) by (unfold CInt.max; lia).
  rewrite (CInt_wrap_small (n * 3)) by (unfold CInt.max; subst n; lia).
  split; [|split].
  - intros Hneg. replace (n * 3 <? 0) with true
      by (symmetry; apply Z.ltb_lt; lia). reflexivity.
  - intros Hpos Hlen.
    replace (n * 3 <? 0) with false by (symmetry; apply Z.ltb_ge; lia).
    destruct (ddd_loop_ok (Frame.pixels f) (Z.to_nat n) 0
                (replicate (Z.to_nat (n * 3)) None))
      as (out & Hrun & Hl & Hdone & _).
    + unfold CInt.max. subst n. lia.
    + subst len. lia.
    + rewrite length_replicate. lia.
    + change (Z.of_nat 0) with 0 in Hrun. rewrite Hrun.
      exists out. split; [reflexivity|]. split.
      * rewrite Hl, length_replicate. lia.
      * intros i Hi. apply Hdone. lia.
  - intros Hpos Hlen.
    replace (n * 3 <? 0) with false by (symmetry; apply Z.ltb_ge; lia).
    rewrite (ddd_loop_short (Frame.pixels f) (Z.to_nat n) 0); [reflexivity| | |].
    + unfold CInt.max. subst n. lia.
    + subst len. lia.
    + rewrite length_replicate. lia.
Qed.

(** *** Frames that wait in the queue *)

(** X8.  A frame of width 0 at the head of the queue is taken for the
    no-frame value: the loop removes it, does not call the sink, clears
    [frames_available] and goes back to waiting, where it stays until the
    next signal although frames may be queued behind the one it dropped. *)
Theorem zero_width_frame_stops_drain (s : world) (count : Z)
    (f : TimestampedVideoFrame) (q : list TimestampedVideoFrame) :
  frame_writer_thread s = AtPop count ->
  frame_buffer s = f :: q ->
  Frame.width f = 0 ->
  is_open (ctl s) = true ->
  exists s',
    exec [Consumer; Consumer; Consumer] s = Some s'
    /\ sink_calls s' = sink_calls s
    /\ frame_buffer s' = q
    /\ frames_available s' = false
    /\ frame_writer_thread s' = AtWait count
    /\ step Consumer s' = None.
Proof.
  intros Ht Hq Hw Ho. eexists. split.
  { cbn. unfold consumer_step. rewrite Ht, Hq. cbn. unfold dispatch. cbn.
    rewrite Hw. cbn. rewrite Ho. reflexivity. }
  cbn. auto 10.
Qed.

(** X9.  A wake-up can be lost.  When the loop has found the queue empty
    and the controlling thread pushes a frame and signals before the loop
    clears [frames_available], the loop clears the flag after the signal and
    goes to wait: the frame is in the queue, the sink has not been called,
    and neither thread can take a step until another call is made. *)
Theorem wake_up_lost (s : world) (count : Z) (f : TimestampedVideoFrame) :
  frame_writer_thread s = AtDispatch count None ->
  is_open (ctl s) = true ->
  prod s = [PPush f; PSignal] ->
  exists s',
    exec [Producer; Producer; Consumer; Consumer] s = Some s'
    /\ frame_buffer s' = frame_buffer s ++ [f]
    /\ sink_calls s' = sink_calls s
    /\ frames_available s' = false
    /\ frame_writer_thread s' = AtWait count
    /\ prod s' = []
    /\ (forall t, step t s' = None).
Proof.
  intros Ht Ho Hp. eexists. split.
  { cbn. unfold producer_step, crashed. rewrite Ht, Hp. cbn. rewrite Ht.
    cbn. unfold consumer_step. cbn. rewrite Ht. cbn. rewrite Ho.
    reflexivity. }
  cbn. split; [auto|]. split; [auto|]. split; [auto|]. split; [auto|].
  split; [auto|]. intros [|]; reflexivity.
Qed.

(** *** The names of the frames *)


(** *** The controlling thread does not depend on the schedule *)

(** X10.  The clock reading of every [open], and whether it could create
    its side file, being given: what the controlling thread leaves in its
    own members - the side file and its stream, [is_open], [last_timestamp],
    [frame_index] - after a sequence of calls does not depend on how the
    steps of the two threads were interleaved.  Any two runs that complete
    the calls end with the same members, those that the calls produce on
    their own: no step of the background thread writes them.  (When the
    clock is read at line 68 does depend on the run, [open] having waited
    for the join before; the statement is about runs with the same
    readings.) *)
Theorem members_independent_of_schedule (s : world)
    (sched1 sched2 : list tid) (s1 s2 : world) :
  exec sched1 s = Some s1 ->
  exec sched2 s = Some s2 ->
  prod s1 = [] ->
  prod s2 = [] ->
  ctl s1 = ctl s2 /\ ctl s1 = finish (prod s) (ctl s).
Proof.
  intros H1 H2 E1 E2.
  apply exec_finish in H1. apply exec_finish in H2.
  rewrite E1 in H1. rewrite E2 in H2. cbn in H1, H2.
  split; congruence.
Qed.

(** *** The video and the side file *)

Lemma sink_calls_grow_step (t : tid) (s s' : world) :
  step t s = Some s' -> exists new, sink_calls s' = sink_calls s ++ new.
Proof.
  destruct t; cbn; unfold producer_step, consumer_step, dispatch.
  - destruct (crashed s); [discriminate|].
    destruct (prod s) as [|i rest]; [discriminate|].
    destruct i; cbn; intros Hs; repeat case_match; simplify_eq; cbn;
      exists []; rewrite app_nil_r; reflexivity.
  - intros Hs; repeat case_match; simplify_eq; cbn;
      first [ eexists; reflexivity
            | exists []; rewrite app_nil_r; reflexivity ].
Qed.

Lemma sink_calls_grow (sched : list tid) :
  forall s s' : world,
    exec sched s = Some s' -> exists new, sink_calls s' = sink_calls s ++ new.
Proof.
  induction sched as [|t sched IH]; intros s s'; simpl.
  - intros [= <-]. exists []. rewrite app_nil_r. reflexivity.
  - destruct (step t s) as [s1|] eqn:E; [|discriminate]. intros Hs.
    destruct (sink_calls_grow_step t s s1 E) as [new1 H1].
    destruct (IH s1 s' Hs) as [new2 H2].
    exists (new1 ++ new2). rewrite H2, H1, app_assoc. reflexivity.
Qed.

Lemma deliver_lookup_frame (fs : list TimestampedVideoFrame) :
  forall (count : Z) (j : nat) (call : sink_call),
    deliver count fs !! j = Some call -> is_Some (fs !! j).
Proof.
  induction fs as [|f fs IH]; intros count j call; cbn; [discriminate|].
  destruct (sink_buffer f); try discriminate.
  destruct j as [|j]; cbn; [eauto|]. apply IH.
Qed.

Lemma finish_writes_failed (fs : list TimestampedVideoFrame) :
  forall c : control,
    os_fail (frame_info_stream c) = true ->
    let c' := finish (program (map Write fs)) c in
    frame_info_file c' = frame_info_file c
    /\ frame_info_stream c' = frame_info_stream c
    /\ is_open c' = is_open c.
Proof.
  induction fs as [|f fs IH]; intros c Hf; [cbn; auto|].
  cbn zeta.
  change (program (map Write (f :: fs)))
    with (PWriteGate f :: program (map Write fs)).
  rewrite finish_cons. cbn [control_effect].
  destruct (write_accepts c f); [|apply IH; exact Hf].
  assert (Hput : forall line,
             ofstream_put line (frame_info_stream c) (frame_info_file c)
             = (frame_info_stream c, frame_info_file c)).
  { intros line. unfold ofstream_put. rewrite Hf. reflexivity. }
  destruct (IH (write_accept f c)) as (Hfile & Hst & Hop).
  { unfold write_accept. cbn. rewrite Hput. exact Hf. }
  rewrite Hfile, Hst, Hop. unfold write_accept. cbn. rewrite Hput. auto.
Qed.

Lemma session_file (s : world) (now : posix_time.ptime) (ok : bool)
    (fs : list TimestampedVideoFrame) (closing : bool)
    (sched : list tid) (s' : world) :
  (os_open (frame_info_stream (ctl s)) = true -> is_open (ctl s) = true) ->
  prod s = program (Open now ok :: map Write fs
                      ++ (if closing then [Close] else [])) ->
  exec sched s = Some s' ->
  prod s' = [] ->
  frame_info_file (ctl s')
  = if ok
    then text (header_lines (ctl s)
               ++ info_lines (accepted (frame_duration (ctl s))
                                (now - frame_duration (ctl s)) 0 fs))
    else frame_info_file (ctl s).
Proof.
  intros Ho Hp Hrun Hend.
  apply exec_finish in Hrun. rewrite Hend, Hp in Hrun.
  cbn [finish fold_left] in Hrun.
  rewrite Hrun, program_cons, program_app, !finish_app.
  cbn [call_steps]. rewrite finish_open by exact Ho.
  match goal with
  | |- context [finish (program (map Write fs)) ?c] => set (c1 := c)
  end.
  assert (Htail : frame_info_file
                    (finish (program (if closing then [Close] else []))
                       (finish (program (map Write fs)) c1))
                  = frame_info_file (finish (program (map Write fs)) c1)).
  { destruct closing; [|reflexivity]. cbn.
    destruct (is_open (finish (program (map Write fs)) c1)); reflexivity. }
  rewrite Htail. destruct ok.
  - destruct (finish_writes fs c1) as (Hfile & Hst & Hop); [reflexivity..|].
    rewrite Hfile, text_app. reflexivity.
  - destruct (finish_writes_failed fs c1) as (Hfile & Hst & Hop);
      [reflexivity|].
    rewrite Hfile. reflexivity.
Qed.

(** X12.  A session on a closed writer with an empty queue, whose accepted
    frames are all ones the loop can hand over, with fewer than 2^31
    submissions.  However the threads are scheduled, the [j]-th call the
    sink receives in the session carries the buffer of the [j]-th accepted
    frame and the index [j].  When the side file could be created, that is
    the index in the name of that frame on line [j + 3] of the side file:
    the video and the side file number the frames alike.  When it could not,
    the sink is served all the same and the side file is left as it was. *)
Theorem video_matches_side_file (s : world) (now : posix_time.ptime)
    (ok : bool) (fs : list TimestampedVideoFrame) (closing : bool)
    (sched : list tid) (s' : world) :
  is_open (ctl s) = false ->
  os_open (frame_info_stream (ctl s)) = false ->
  frame_writer_thread s = NotAThread ->
  frame_buffer s = [] ->
  prod s = program (Open now ok :: map Write fs
                      ++ (if closing then [Close] else [])) ->
  let acc := accepted (frame_duration (ctl s))
               (now - frame_duration (ctl s)) 0 fs in
  forallb deliverable (map fst acc) = true ->
  Z.of_nat (length fs) <= CInt.max ->
  exec sched s = Some s' ->
  exists new,
    sink_calls s' = sink_calls s ++ new
    /\ (length new <= length acc)%nat
    /\ (forall (j : nat) (call : sink_call),
          new !! j = Some call ->
          exists f,
            acc !! j = Some (f, Z.of_nat j)
            /\ sc_index call = Z.of_nat j
            /\ sink_buffer f = ConvOk (sc_pixels call)
            /\ (header_lines (ctl s) ++ info_lines acc) !! (2 + j)%nat
               = Some (info_line f (Z.of_nat j)))
    /\ (prod s' = [] ->
        frame_info_file (ctl s')
        = if ok then text (header_lines (ctl s) ++ info_lines acc)
          else frame_info_file (ctl s)).
Proof.
  intros Ho Hos Ht Hq Hp acc Hd Hlen Hrun.
  assert (Hpend : pending s = map fst acc).
  { unfold pending. rewrite Ht, Hq, Hp, program_cons, program_app.
    cbn [in_flight app].
    cbn [call_steps open close app will_push control_effect].
    rewrite Ho. rewrite will_push_writes.
    cbn [frame_duration last_timestamp frame_index open_control].
    destruct closing; cbn; rewrite app_nil_r; reflexivity. }
  assert (Hinv : on_course (sink_calls s ++ deliver 0 (map fst acc)) s).
  { split; [unfold crashed; rewrite Ht; reflexivity|].
    rewrite Hpend. split; [exact Hd|]. exists 0. split; [reflexivity|].
    right. split; [|auto]. exists now, ok, (program (map Write fs
                                   ++ (if closing then [Close] else []))).
    split; [apply writes_no_reopen|]. left. split; [|exact Ho].
    rewrite Hp, program_cons. reflexivity. }
  apply (on_course_run _ sched s s') in Hinv; [|exact Hrun].
  destruct Hinv as (_ & _ & count' & HE & _).
  destruct (sink_calls_grow sched s s' Hrun) as [new Hnew].
  rewrite Hnew, <- app_assoc in HE. apply app_inv_head in HE.
  assert (Hidx : map snd acc = map Z.of_nat (seq 0 (length acc))).
  { apply (accepted_indices _ fs _ 0%nat). cbn. exact Hlen. }
  assert (Hcall : forall (j : nat) (call : sink_call),
             new !! j = Some call ->
             exists f,
               acc !! j = Some (f, Z.of_nat j)
               /\ call = {| sc_pixels := sc_pixels call;
                            sc_width := Frame.width f;
                            sc_height := Frame.height f;
                            sc_index := Z.of_nat j |}
               /\ sink_buffer f = ConvOk (sc_pixels call)).
  { intros j call Hj.
    assert (HD : deliver 0 (map fst acc) !! j = Some call).
    { rewrite <- HE. apply lookup_app_l_Some. exact Hj. }
    destruct (deliver_lookup_frame _ _ _ _ HD) as [f Hf].
    pose proof Hf as Hf'. rewrite list_lookup_fmap in Hf'.
    destruct (acc !! j) as [[f' idx]|] eqn:Ea; [|discriminate].
    cbn in Hf'. injection Hf' as <-.
    assert (Hsnd : map snd acc !! j = Some idx)
      by (rewrite list_lookup_fmap, Ea; reflexivity).
    rewrite Hidx, list_lookup_fmap in Hsnd.
    assert (Hjl : (j < length acc)%nat) by (apply lookup_lt_Some in Ea; exact Ea).
    rewrite lookup_seq_lt in Hsnd by exact Hjl. cbn in Hsnd.
    injection Hsnd as <-.
    destruct (deliver_lookup (map fst acc) 0 j f' Hd Hf) as (out & Hout & Hl).
    { lia. }
    { unfold CInt.max in *. apply lookup_lt_Some in Hf.
      rewrite length_map in Hf.
      assert (length acc <= length fs)%nat.
      { pose proof (sublist_length _ _
                      (accepted_sublist (frame_duration (ctl s)) fs
                         (now - frame_duration (ctl s)) 0)) as Hsl.
        rewrite length_map in Hsl. exact Hsl. }
      lia. }
    rewrite HD in Hl. injection Hl as ->. cbn.
    exists f'. rewrite Z.add_0_l. auto. }
  exists new. split; [exact Hnew|]. split.
  { destruct (decide (length new <= length acc)%nat) as [Hle|Hgt]; [exact Hle|].
    destruct (lookup_lt_is_Some_2 new (length acc)) as [call Hj]; [lia|].
    destruct (Hcall _ _ Hj) as (f & Ha & _).
    apply lookup_lt_Some in Ha. lia. }
  split.
  - intros j call Hj. destruct (Hcall j call Hj) as (f & Ha & Hc & Hb).
    exists f. split; [exact Ha|]. split; [rewrite Hc; reflexivity|].
    split; [exact Hb|].
    change (2 + j)%nat with (length (header_lines (ctl s)) + j)%nat.
    rewrite lookup_app_r by lia.
    replace (length (header_lines (ctl s)) + j
             - length (header_lines (ctl s)))%nat with j by lia.
    unfold info_lines. rewrite list_lookup_fmap, Ha. reflexivity.
  - intros Hend. eapply session_file; try eassumption.
    rewrite Hos. discriminate.
Qed.

(** *** The frame duration at the ends of the range *)

(** X13.  The constructor accepts any non-zero frame rate.  From 1 to
    1000000 frames a second the frame duration is between 1 and 1000000
    microseconds.  Above 1000000 it is 0, and then [write] accepts every
    frame that is not stamped before the last accepted one; a negative
    rate gives a duration that is negative or 0, and then every such frame
    is accepted as well. *)
Theorem frame_duration_range (w h fps : Z) t0 i0 file0 (c : control) :
  VideoFrameWriter_new w h fps t0 i0 file0 = Some c ->
  (1 <= fps <= 1000000 -> 1 <= frame_duration c <= 1000000)
  /\ (1000000 < fps -> frame_duration c = 0)
  /\ (fps < 0 -> - 1000000 <= frame_duration c <= 0)
  /\ (frame_duration c <= 0 ->
      forall (c' : control) (f : TimestampedVideoFrame),
        frame_duration c' = frame_duration c ->
        last_timestamp c' <= Frame.timestamp f ->
        write_accepts c' f = true).
Proof.
  unfold VideoFrameWriter_new, posix_time.div.
  destruct (Z.eqb_spec fps 0) as [->|Hne]; [discriminate|].
  intros [= <-]. cbn [frame_duration].
  change (posix_time.milliseconds 1000) with 1000000.
  split; [|split; [|split]].
  - intros Hr. pose proof (Z.quot_le_mono 1 1000000 fps) as H1.
    split.
    + apply Z.quot_le_lower_bound; lia.
    + apply Z.quot_le_upper_bound; lia.
  - intros Hr. apply Z.quot_small. lia.
  - intros Hr. rewrite <- (Z.opp_involutive fps), Z.quot_opp_r by lia.
    assert (0 <= Z.quot 1000000 (- fps) <= 1000000).
    { split; [apply Z.quot_pos; lia|].
      apply Z.quot_le_upper_bound; lia. }
    lia.
  - intros Hd c' f Hsame Hts. unfold write_accepts. apply Z.leb_le. lia.
Qed.

End Properties.

(** * Examples *)

(** C8: at 3 frames a second the frame duration is 333333 microseconds, not
    the 333 ms of the millisecond quotient. *)
Lemma frame_duration_fps3_not_333ms :
  exists c, VideoFrameWriter_new 640 480 3 0 0 "" = Some c
            /\ frame_duration c = 333333
            /\ posix_time.milliseconds (1000 / 3) = 333000
            /\ frame_duration c <> posix_time.milliseconds (1000 / 3).
Proof.
  eexists. split; [reflexivity|]. cbn. repeat split. discriminate.
Qed.

Lemma frame_duration_in_ticks_witness :
  VideoFrameWriter_new 640 480 3 0 0 "" = Some (demo_control_at 640 480 3)
  /\ frame_duration (demo_control_at 640 480 3) = Z.quot 1000000 3.
Proof.
  split; [reflexivity|].
  exact (proj1 (frame_duration_in_ticks (float := Z) 640 480 3 0 0 "" _
                  eq_refl)).
Defined.

(** C5: a frame stamped one millisecond before [open] read the clock is
    rejected, although it is the first frame submitted. *)
Lemma first_frame_before_start_dropped :
  exists s',
    exec (repeat Producer 4)
         (start (demo_control 10)
            [Open 1000000 true; Write (rgb_at 1000000 (-1))])
      = Some s'
    /\ prod s' = []
    /\ write_accepts (open_control 1000000 true (demo_control 10))
                     (rgb_at 1000000 (-1)) = false
    /\ frame_buffer s' = []
    /\ frame_index (ctl s') = 0.
Proof.
  eexists. split; [vm_compute; reflexivity|]. cbn. repeat split.
Qed.

(** C2: the loop tests [is_open] before it drains, and returns when the
    flag is clear whatever the queue holds.  One frame is accepted and
    [close] is called: when the background thread runs before [close], the
    sink is called once, with index 0; when it takes its first step after
    [close] has cleared [is_open], it returns at once, [close] completes, the
    sink has not been called and the accepted frame is still in the queue. *)
Theorem accepted_frame_lost_on_close :
  let f := rgb_at 1000000 0 in
  let s0 := start (demo_control 10) one_frame_calls in
  (forall (s : @world Z) (count : Z),
      frame_writer_thread s = AtLoopTest count ->
      is_open (ctl s) = false ->
      consumer_step s = Some (set_thread Returned s))
  /\ map fst (accepted 100000 (1000000 - 100000) 0 [f]) = [f]
  /\ (exists s',
        exec timely_schedule s0 = Some s'
        /\ prod s' = []
        /\ frame_buffer s' = []
        /\ sink_calls s'
           = [{| sc_pixels := Some <$> Frame.pixels f; sc_width := 1;
                 sc_height := 1; sc_index := 0 |}])
  /\ (exists s',
        exec late_schedule s0 = Some s'
        /\ prod s' = []
        /\ is_open (ctl s') = false
        /\ frame_writer_thread s' = NotAThread
        /\ frame_index (ctl s') = 1
        /\ sink_calls s' = []
        /\ frame_buffer s' = [f]).
Proof.
  cbv zeta. split; [|split; [reflexivity|split]].
  - intros s count Ht Ho. unfold consumer_step. rewrite Ht, Ho. reflexivity.
  - eexists. split; [vm_compute; reflexivity|]. cbn. auto.
  - eexists. split; [vm_compute; reflexivity|]. cbn. auto 10.
Qed.

(** C1: a frame that passes the throttle is accepted and queued, and
    [frame_index] goes up, but no line is added to the side file when the
    writer has been closed, nor when [open] could not create the file. *)
Lemma accepted_frame_without_line :
  let f := rgb_at 0 0 in
  let newline := String "010"%char EmptyString in
  (let s := after closed_schedule
              (start (demo_control 10) [Open 0 true; Close; Write f]) in
   write_accepts (ctl s) f = true
   /\ frame_info_file (ctl s)
      = "width=1" +:+ newline +:+ "height=1" +:+ newline
   /\ exists s',
       exec [Producer; Producer; Producer] s = Some s'
       /\ prod s' = []
       /\ frame_buffer s' = [f]
       /\ frame_index (ctl s') = 1
       /\ frame_info_file (ctl s') = frame_info_file (ctl s))
  /\ (let s := after (repeat Producer 3)
                 (start (demo_control 10) [Open 0 false; Write f]) in
      isOpen s = true
      /\ write_accepts (ctl s) f = true
      /\ frame_info_file (ctl s) = ""
      /\ exists s',
          exec [Producer; Producer; Producer] s = Some s'
          /\ prod s' = []
          /\ frame_buffer s' = [f]
          /\ frame_index (ctl s') = 1
          /\ frame_info_file (ctl s') = "").
Proof.
  cbv zeta. split.
  - split; [vm_compute; reflexivity|]. split; [vm_compute; reflexivity|].
    eexists. split; [vm_compute; reflexivity|]. cbn. auto.
  - split; [vm_compute; reflexivity|]. split; [vm_compute; reflexivity|].
    split; [vm_compute; reflexivity|].
    eexists. split; [vm_compute; reflexivity|]. cbn. auto.
Qed.

(** C1 at the first submission of the session: the frame stamped at the
    opening time is accepted and appended to the queue. *)
Lemma write_throttle_witness :
  let s := after (repeat Producer 3)
             (start (demo_control 10) (session_calls 5000000)) in
  crashed s = false
  /\ prod s = write (rgb_at 5000000 0) ++ tl (prod s)
  /\ write_accepts (ctl s) (rgb_at 5000000 0) = true
  /\ frame_index (ctl s) = 0
  /\ exists s',
      exec [Producer; Producer; Producer] s = Some s'
      /\ frame_index (ctl s') = frame_index (ctl s) + 1
      /\ frame_buffer s' = frame_buffer s ++ [rgb_at 5000000 0].
Proof.
  cbv zeta.
  split; [vm_compute; reflexivity|].
  split; [vm_compute; reflexivity|].
  split; [vm_compute; reflexivity|].
  split; [vm_compute; reflexivity|].
  destruct (proj1 (@write_throttle Z demo_text)
              (after (repeat Producer 3)
                 (start (demo_control 10) (session_calls 5000000)))
              (rgb_at 5000000 0)
              (tl (prod (after (repeat Producer 3)
                           (start (demo_control 10) (session_calls 5000000))))))
    as (_ & Hacc & _).
  - vm_compute; reflexivity.
  - vm_compute; reflexivity.
  - destruct Hacc as (s' & Hrun & _ & Hi & _ & _ & _ & Hq & _);
      [vm_compute; reflexivity|].
    exists s'. split; [exact Hrun|]. split; [|exact Hq].
    apply Hi. vm_compute. split; [discriminate | reflexivity].
Defined.

(** C3: the largest four-channel frame has all its width x height x 4
    bytes, but the size [width * height * 3] of the output buffer does not
    fit an [int]: the allocation throws and the sink gets no buffer. *)
Lemma largest_depth_frame_not_converted :
  Frame.channels largest_depth_frame = 4
  /\ Frame.width largest_depth_frame = 2 ^ 15 - 1
  /\ Frame.height largest_depth_frame = 2 ^ 15 - 1
  /\ well_formed largest_depth_frame
  /\ sink_buffer largest_depth_frame = ConvThrow bad_array_new_length
  /\ ~ exists out, sink_buffer largest_depth_frame = ConvOk out.
Proof.
  assert (Hthrow : sink_buffer largest_depth_frame
                   = ConvThrow bad_array_new_length).
  { unfold sink_buffer, extract_DDD, largest_depth_frame, demo_frame.
    cbn [Frame.channels Frame.width Frame.height Frame.pixels].
    lazy. reflexivity. }
  split; [reflexivity|]. split; [reflexivity|]. split; [reflexivity|].
  split.
  - unfold well_formed, largest_depth_frame, demo_frame.
    cbn [Frame.channels Frame.width Frame.height Frame.pixels].
    rewrite repeat_length, Z2Nat.id by discriminate. reflexivity.
  - split; [exact Hthrow|]. intros [out Hout]. rewrite Hthrow in Hout.
    discriminate Hout.
Qed.

(** C3 on a 2x1 frame with four channels. *)
Lemma pixel_conversion_witness :
  Frame.channels rgbd_frame = 4
  /\ well_formed rgbd_frame
  /\ int_indexed rgbd_frame
  /\ sink_buffer rgbd_frame
     = ConvOk [Some x2a; Some x2a; Some x2a; Some x2b; Some x2b; Some x2b]%byte
  /\ exists out, sink_buffer rgbd_frame = ConvOk out /\ length out = 6%nat.
Proof.
  assert (Hwf : well_formed rgbd_frame) by reflexivity.
  assert (Hint : int_indexed rgbd_frame) by (vm_compute; discriminate).
  split; [reflexivity|]. split; [exact Hwf|]. split; [exact Hint|].
  split; [reflexivity|].
  destruct (proj1 (proj2 (proj2 (pixel_conversion rgbd_frame)))
              eq_refl Hwf Hint) as (out & Hout & Hlen & _).
  exists out. split; [exact Hout | exact Hlen].
Defined.

(** C4 on a frame with two channels at the head of the queue. *)
Lemma unsupported_channels_fatal_witness :
  let s := after (repeat Producer 6 ++ [Consumer; Consumer])
             (start (demo_control 10) [Open 0 true; Write two_channel_frame]) in
  frame_writer_thread s = AtPop 0
  /\ frame_buffer s = [two_channel_frame]
  /\ exists s',
      exec [Consumer; Consumer] s = Some s'
      /\ frame_writer_thread s'
         = Threw (runtime_error "Unsupported number of channels")
      /\ sink_calls s' = sink_calls s.
Proof.
  cbv zeta.
  split; [vm_compute; reflexivity|].
  split; [vm_compute; reflexivity|].
  destruct (unsupported_channels_fatal
              (after (repeat Producer 6 ++ [Consumer; Consumer])
                 (start (demo_control 10) [Open 0 true; Write two_channel_frame]))
              0 two_channel_frame [])
    as (s' & Hrun & Ht & Hk & _).
  - vm_compute; reflexivity.
  - vm_compute; reflexivity.
  - cbn. lia.
  - cbn. lia.
  - cbn. lia.
  - exists s'. auto.
Defined.

(** C6: when [open] cannot create the side file, the session goes on, the
    frame is accepted and reaches the sink, and there is no side file, with
    no header and no line.  And the millionth frame of a session gets an
    index of seven digits. *)
Lemma side_file_missing_or_index_longer :
  let f := rgb_at 1000000 0 in
  let newline := String "010"%char EmptyString in
  (exists s',
      exec timely_schedule (start (demo_control 10) unwritable_calls)
      = Some s'
      /\ isOpen (after (repeat Producer 3)
                   (start (demo_control 10) unwritable_calls)) = true
      /\ prod s' = []
      /\ sink_calls s'
         = [{| sc_pixels := Some <$> Frame.pixels f; sc_width := 1;
               sc_height := 1; sc_index := 0 |}]
      /\ frame_info_file (ctl s') = "")
  /\ write_accepts millionth_control (rgb_at 0 200) = true
  /\ frame_info_file (write_accept (rgb_at 0 200) millionth_control)
     = "200000 frame_1000000 xyzyp: 0 0 0 0 0" +:+ newline.
Proof.
  cbv zeta. split.
  - eexists. split; [vm_compute; reflexivity|]. cbn.
    split; [vm_compute; reflexivity|]. auto.
  - split; vm_compute; reflexivity.
Qed.

(** C6 on the session of five submissions. *)
Lemma sidecar_contents_witness :
  let s := start (demo_control 10) (session_calls 5000000) in
  let s' := after drained_schedule s in
  let newline := String "010"%char EmptyString in
  exec drained_schedule s = Some s'
  /\ prod s' = []
  /\ frame_info_file (ctl s')
     = "width=1" +:+ newline +:+ "height=1" +:+ newline
       +:+ "5000000 frame_000000 xyzyp: 0 0 0 0 0" +:+ newline
       +:+ "5100000 frame_000001 xyzyp: 0 0 0 0 0" +:+ newline
       +:+ "5250000 frame_000002 xyzyp: 0 0 0 0 0" +:+ newline.
Proof.
  cbv zeta.
  split; [vm_compute; reflexivity|].
  split; [vm_compute; reflexivity|].
  rewrite (proj1 (sidecar_contents
                    (start (demo_control 10) (session_calls 5000000))
                    5000000
                    [rgb_at 5000000 0; rgb_at 5000000 30; rgb_at 5000000 60;
                     rgb_at 5000000 100; rgb_at 5000000 250]
                    true drained_schedule
                    (after drained_schedule
                       (start (demo_control 10) (session_calls 5000000)))
                    ltac:(discriminate) eq_refl
                    ltac:(vm_compute; reflexivity)
                    ltac:(vm_compute; reflexivity))).
  vm_compute. reflexivity.
Defined.


(** C9: a frame written to a closed writer is not lost for ever.  [open]
    does not empty the queue, so the thread of the next session takes the
    frame and hands it to the sink with index 0. *)
Lemma stale_frame_served_by_next_session :
  let f := rgb_at 0 0 in
  let s := after closed_schedule (start (demo_control 10) reopened_calls) in
  is_open (ctl s) = false
  /\ frame_writer_thread s = NotAThread
  /\ os_open (frame_info_stream (ctl s)) = false
  /\ write_accepts (ctl s) f = true
  /\ prod s = write f ++ program [Open 5 true; Close]
  /\ exists s1 s',
      exec [Producer; Producer; Producer] s = Some s1
      /\ frame_buffer s1 = [f]
      /\ sink_calls s1 = []
      /\ exec reopened_schedule s1 = Some s'
      /\ prod s' = []
      /\ frame_buffer s' = []
      /\ sink_calls s'
         = [{| sc_pixels := Some <$> Frame.pixels f; sc_width := 1;
               sc_height := 1; sc_index := 0 |}].
Proof.
  cbv zeta.
  split; [vm_compute; reflexivity|]. split; [vm_compute; reflexivity|].
  split; [vm_compute; reflexivity|]. split; [vm_compute; reflexivity|].
  split; [vm_compute; reflexivity|].
  eexists. eexists. split; [vm_compute; reflexivity|].
  split; [vm_compute; reflexivity|]. split; [vm_compute; reflexivity|].
  split; [vm_compute; reflexivity|]. cbn. auto.
Qed.

(** C9 on a writer that has been opened and closed. *)
Lemma write_after_close_witness :
  let s := after [Producer; Producer; Producer; Producer; Producer;
                  Consumer; Producer]
             (start (demo_control 10) [Open 0 true; Close; Write (rgb_at 0 0)]) in
  is_open (ctl s) = false
  /\ frame_writer_thread s = NotAThread
  /\ prod s = write (rgb_at 0 0) ++ []
  /\ exists s',
      exec [Producer; Producer; Producer] s = Some s'
      /\ frame_buffer s' = frame_buffer s ++ [rgb_at 0 0]
      /\ frame_info_file (ctl s') = frame_info_file (ctl s)
      /\ consumer_step s' = None.
Proof.
  cbv zeta.
  split; [vm_compute; reflexivity|].
  split; [vm_compute; reflexivity|].
  split; [vm_compute; reflexivity|].
  destruct (write_after_close
              (after [Producer; Producer; Producer; Producer; Producer;
                      Consumer; Producer]
                 (start (demo_control 10) [Open 0 true; Close; Write (rgb_at 0 0)]))
              (rgb_at 0 0) [])
    as (s' & Hrun & _ & _ & _ & Hfile & _ & _ & Hq & _ & _ & _ & Hcons & _).
  - vm_compute; reflexivity.
  - vm_compute; reflexivity.
  - vm_compute; reflexivity.
  - vm_compute; reflexivity.
  - vm_compute; reflexivity.
  - exists s'. auto.
Defined.

(** X1 on the session after [open], with the schedule that drains. *)
Lemma sink_served_in_order_witness :
  let s' := after rest_of_drained_schedule opened_session in
  exec rest_of_drained_schedule opened_session = Some s'
  /\ pending opened_session
     = [rgb_at 5000000 0; rgb_at 5000000 100; rgb_at 5000000 250]
  /\ pending s' = []
  /\ sink_calls s'
     = sink_calls opened_session ++ deliver 0 (pending opened_session).
Proof.
  cbv zeta.
  split; [vm_compute; reflexivity|].
  split; [vm_compute; reflexivity|].
  split; [vm_compute; reflexivity|].
  destruct (sink_served_in_order opened_session 0 rest_of_drained_schedule
              (after rest_of_drained_schedule opened_session))
    as (_ & _ & Hall & _).
  - vm_compute; reflexivity.
  - intros c. vm_compute. intros [= <-]. reflexivity.
  - vm_compute; reflexivity.
  - vm_compute; reflexivity.
  - vm_compute; reflexivity.
  - apply Hall. vm_compute; reflexivity.
Defined.

(** X2 on the session of five submissions. *)
Lemma session_served_in_order_witness :
  let s := start (demo_control 10) (session_calls 5000000) in
  let s' := after drained_schedule s in
  exec drained_schedule s = Some s'
  /\ crashed s' = false
  /\ exists count',
      sink_calls s
        ++ deliver 0
             (frame_buffer s
                ++ map fst (accepted (frame_duration (ctl s))
                              (5000000 - frame_duration (ctl s)) 0
                              [rgb_at 5000000 0; rgb_at 5000000 30;
                               rgb_at 5000000 60; rgb_at 5000000 100;
                               rgb_at 5000000 250]))
      = sink_calls s' ++ deliver count' (pending s').
Proof.
  cbv zeta.
  split; [vm_compute; reflexivity|].
  destruct (session_served_in_order
              (start (demo_control 10) (session_calls 5000000)) 5000000 true
              [rgb_at 5000000 0; rgb_at 5000000 30; rgb_at 5000000 60;
               rgb_at 5000000 100; rgb_at 5000000 250]
              true drained_schedule
              (after drained_schedule
                 (start (demo_control 10) (session_calls 5000000))))
    as (Hc & count' & _ & HE & _).
  - reflexivity.
  - reflexivity.
  - reflexivity.
  - vm_compute; reflexivity.
  - vm_compute; reflexivity.
  - split; [exact Hc|]. exists count'. exact HE.
Defined.

(** X3 on the session of five submissions. *)
Lemma one_thread_while_open_witness :
  let s' := after drained_schedule
              (start (demo_control 10) (session_calls 5000000)) in
  VideoFrameWriter_new 1 1 10 0 0 "" = Some (demo_control 10)
  /\ exec drained_schedule (start (demo_control 10) (session_calls 5000000))
     = Some s'
  /\ detached s' = 0%nat
  /\ os_open (frame_info_stream (ctl s')) = isOpen s'.
Proof.
  cbv zeta.
  split; [reflexivity|].
  split; [vm_compute; reflexivity|].
  destruct (one_thread_while_open 1 1 10 0 0 "" (demo_control 10)
              (session_calls 5000000) drained_schedule
              (after drained_schedule
                 (start (demo_control 10) (session_calls 5000000))))
    as (Hd & _ & Hos & _).
  - reflexivity.
  - vm_compute; reflexivity.
  - split; [exact Hd | apply Hos; reflexivity].
Defined.

(** X4 on the session when [close] has signalled the waiting thread. *)
Lemma join_is_reached_witness :
  is_open (ctl signalled_session) = false
  /\ frame_writer_thread signalled_session = AtWait 0
  /\ frames_available signalled_session = true
  /\ exists (n : nat) (s' : world),
      exec (repeat Consumer n) signalled_session = Some s'
      /\ frame_writer_thread s' = Returned
      /\ frame_buffer s' = []
      /\ sink_calls s'
         = sink_calls signalled_session
             ++ deliver 0 (frame_buffer signalled_session).
Proof.
  split; [vm_compute; reflexivity|].
  split; [vm_compute; reflexivity|].
  split; [vm_compute; reflexivity|].
  destruct (join_is_reached signalled_session 0)
    as (n & s' & _ & Hrun & _ & _ & _ & _ & Hall).
  - vm_compute; reflexivity.
  - vm_compute; reflexivity.
  - intros _. vm_compute; reflexivity.
  - exists n, s'. split; [exact Hrun|]. apply Hall.
    + vm_compute. discriminate.
    + vm_compute. discriminate.
    + vm_compute; reflexivity.
Defined.

(** X5 on the session before [close], with the schedule that drains. *)
Lemma close_completes_witness :
  let sched := repeat Consumer 9 ++ [Producer; Producer; Consumer; Producer] in
  let s' := after sched waiting_session in
  is_open (ctl waiting_session) = true
  /\ thread_count (frame_writer_thread waiting_session) = Some 0
  /\ prod waiting_session = close
  /\ exec sched waiting_session = Some s'
  /\ prod s' = []
  /\ (length sched <= 4 * length (frame_buffer waiting_session) + 12)%nat
  /\ frame_writer_thread s' = NotAThread
  /\ isOpen s' = false.
Proof.
  cbv zeta.
  split; [vm_compute; reflexivity|].
  split; [vm_compute; reflexivity|].
  split; [vm_compute; reflexivity|].
  split; [vm_compute; reflexivity|].
  split; [vm_compute; reflexivity|].
  destruct (proj1 (close_completes waiting_session 0
                     ltac:(vm_compute; reflexivity)
                     ltac:(vm_compute; reflexivity)
                     ltac:(vm_compute; reflexivity))
              (repeat Consumer 9 ++ [Producer; Producer; Consumer; Producer])
              (after (repeat Consumer 9
                        ++ [Producer; Producer; Consumer; Producer])
                 waiting_session))
    as (Hlen & _ & Hend & _).
  - vm_compute; reflexivity.
  - split; [exact Hlen|]. destruct Hend as (Ht & Ho & _).
    + vm_compute; reflexivity.
    + split; [exact Ht | exact Ho].
Defined.

(** X6 on the five submissions of the session. *)
Lemma throttle_rate_witness :
  prod opened_session
  = program (map Write [rgb_at 5000000 0; rgb_at 5000000 30;
                        rgb_at 5000000 60; rgb_at 5000000 100;
                        rgb_at 5000000 250]) ++ [PCloseTest]
  /\ exists (n : nat) (s' : world) (pushed : list (Frame.t Z)),
      exec (repeat Producer n) opened_session = Some s'
      /\ frame_buffer s' = frame_buffer opened_session ++ pushed
      /\ sublist pushed [rgb_at 5000000 0; rgb_at 5000000 30;
                         rgb_at 5000000 60; rgb_at 5000000 100;
                         rgb_at 5000000 250].
Proof.
  split; [vm_compute; reflexivity|].
  destruct (throttle_rate opened_session
              [rgb_at 5000000 0; rgb_at 5000000 30; rgb_at 5000000 60;
               rgb_at 5000000 100; rgb_at 5000000 250] [PCloseTest])
    as (n & s' & pushed & Hrun & Hq & _ & Hsub & _).
  - vm_compute; reflexivity.
  - vm_compute; reflexivity.
  - exists n, s', pushed. auto.
Defined.

(** X7 on a 2x1 frame with four channels and all its eight bytes. *)
Lemma four_channel_outcomes_witness :
  Frame.channels rgbd_frame = 4
  /\ exists out,
      sink_buffer rgbd_frame = ConvOk out /\ Z.of_nat (length out) = 6.
Proof.
  split; [reflexivity|].
  destruct (four_channel_outcomes rgbd_frame) as (_ & Hok & _).
  - reflexivity.
  - vm_compute. discriminate.
  - vm_compute. discriminate.
  - destruct Hok as (out & Hout & Hlen & _).
    + vm_compute. discriminate.
    + vm_compute. discriminate.
    + exists out. split; [exact Hout | exact Hlen].
Defined.

(** X8 on a queue that holds a frame of width 0 and a frame behind it. *)
Lemma zero_width_frame_stops_drain_witness :
  frame_writer_thread zero_width_queued = AtPop 0
  /\ frame_buffer zero_width_queued = [zero_width_frame; rgb_at 0 200]
  /\ exists s',
      exec [Consumer; Consumer; Consumer] zero_width_queued = Some s'
      /\ sink_calls s' = []
      /\ frame_buffer s' = [rgb_at 0 200]
      /\ step Consumer s' = None.
Proof.
  split; [vm_compute; reflexivity|].
  split; [vm_compute; reflexivity|].
  destruct (zero_width_frame_stops_drain zero_width_queued 0
              zero_width_frame [rgb_at 0 200])
    as (s' & Hrun & Hk & Hq & _ & _ & Hstop).
  - vm_compute; reflexivity.
  - vm_compute; reflexivity.
  - reflexivity.
  - vm_compute; reflexivity.
  - exists s'. split; [exact Hrun|]. split; [|split; assumption].
    rewrite Hk. vm_compute; reflexivity.
Defined.

(** X9 on a writer whose thread has found the queue empty during the second
    accepted [write]. *)
Lemma wake_up_lost_witness :
  frame_writer_thread empty_pop_during_write = AtDispatch 1 None
  /\ prod empty_pop_during_write = [PPush (rgb_at 0 100); PSignal]
  /\ exists s',
      exec [Producer; Producer; Consumer; Consumer] empty_pop_during_write
      = Some s'
      /\ frame_buffer s' = [rgb_at 0 100]
      /\ (forall t, step t s' = None).
Proof.
  split; [vm_compute; reflexivity|].
  split; [vm_compute; reflexivity|].
  destruct (wake_up_lost empty_pop_during_write 1 (rgb_at 0 100))
    as (s' & Hrun & Hq & _ & _ & _ & _ & Hstop).
  - vm_compute; reflexivity.
  - vm_compute; reflexivity.
  - vm_compute; reflexivity.
  - exists s'. split; [exact Hrun|]. split; [|exact Hstop].
    rewrite Hq. vm_compute; reflexivity.
Defined.

(** X10 on the two schedules of the one-frame session. *)
Lemma members_independent_of_schedule_witness :
  let s := start (demo_control 10) one_frame_calls in
  exec timely_schedule s = Some (after timely_schedule s)
  /\ exec late_schedule s = Some (after late_schedule s)
  /\ ctl (after timely_schedule s) = ctl (after late_schedule s).
Proof.
  cbv zeta.
  split; [vm_compute; reflexivity|].
  split; [vm_compute; reflexivity|].
  apply (members_independent_of_schedule
           (start (demo_control 10) one_frame_calls)
           timely_schedule late_schedule).
  - vm_compute; reflexivity.
  - vm_compute; reflexivity.
  - vm_compute; reflexivity.
  - vm_compute; reflexivity.
Defined.


(** X12 on the session of five submissions. *)
Lemma video_matches_side_file_witness :
  let s := start (demo_control 10) (session_calls 5000000) in
  let s' := after drained_schedule s in
  exec drained_schedule s = Some s'
  /\ exists new,
      sink_calls s' = sink_calls s ++ new
      /\ (length new <= 3)%nat
      /\ forall (j : nat) (call : sink_call),
           new !! j = Some call -> sc_index call = Z.of_nat j.
Proof.
  cbv zeta.
  split; [vm_compute; reflexivity|].
  destruct (video_matches_side_file
              (start (demo_control 10) (session_calls 5000000)) 5000000 true
              [rgb_at 5000000 0; rgb_at 5000000 30; rgb_at 5000000 60;
               rgb_at 5000000 100; rgb_at 5000000 250]
              true drained_schedule
              (after drained_schedule
                 (start (demo_control 10) (session_calls 5000000))))
    as (new & Hnew & Hlen & Hcalls & _).
  - reflexivity.
  - reflexivity.
  - reflexivity.
  - reflexivity.
  - reflexivity.
  - vm_compute; reflexivity.
  - vm_compute. discriminate.
  - vm_compute; reflexivity.
  - exists new. split; [exact Hnew|]. split; [exact Hlen|].
    intros j call Hj. destruct (Hcalls j call Hj) as (f & _ & Hidx & _).
    exact Hidx.
Defined.

(** X13 at 10 frames a second. *)
Lemma frame_duration_range_witness :
  VideoFrameWriter_new 1 1 10 0 0 "" = Some (demo_control 10)
  /\ 1 <= frame_duration (demo_control 10) <= 1000000.
Proof.
  split; [reflexivity|].
  apply (proj1 (frame_duration_range (float := Z) 1 1 10 0 0 ""
                  (demo_control 10) eq_refl)).
  lia.
Defined.
